(** * Enque edge control plane: realtime hub and rate limiter

    A shallow embedding of

    - [cloudflare/src/durable-objects/realtime.ts] ([RealtimeHandler]): the
      Durable Object that keeps the WebSocket sessions of the agents and
      fans messages out to the sessions of one workspace;
    - [cloudflare/src/middleware/rate-limit.ts] ([rateLimitMiddleware]): the
      fixed-window rate limiter on top of a KV namespace.

    Conventions of the embedding.

    - JavaScript numbers that the code handles (counters, epoch
      milliseconds, limits) are integers and are modelled by [Z].
    - [Date.now()] is an input of every handler ([now]).
    - [JSON.stringify] is the platform's serialiser: a frame or a body is
      recorded as the JSON value the code hands to it.  [JSON.parse] is a
      parameter of the hub ([None] stands for a [SyntaxError]).
    - An exception is a value: handlers run in a small state and exception
      monad, and [try ... catch] is a combinator of it. *)

From Stdlib Require Import ZArith Lia Ascii.
From stdpp Require Import base option list strings gmap pretty.

Set Warnings "-register-all".

Local Open Scope string_scope.
Local Open Scope Z_scope.

(** ** JavaScript values *)

Module Js.

Inductive json : Type :=
| JNull
| JBool (b : bool)
| JNum (n : Z)
| JStr (s : string)
| JArr (items : list json)
| JObj (fields : list (string * json)).

(** An object is the list of its own properties, in creation order. *)
Abbreviation object := (list (string * json)).

(** [o[k]]: [None] is [undefined]. *)
Fixpoint prop_get (k : string) (o : object) : option json :=
  match o with
  | [] => None
  | (k', v) :: rest => if String.eqb k' k then Some v else prop_get k rest
  end.

(** [{ ...o, k: v }]: an own property keeps its place and takes the new
    value, a new property goes last. *)
Fixpoint prop_set (k : string) (v : json) (o : object) : object :=
  match o with
  | [] => [(k, v)]
  | (k', v') :: rest =>
      if String.eqb k' k then (k, v) :: rest else (k', v') :: prop_set k v rest
  end.

(** A property whose value is [undefined] is left out by [JSON.stringify]. *)
Definition optional_prop (k : string) (v : option json) : object :=
  match v with
  | Some x => [(k, x)]
  | None => []
  end.

(** [Math.ceil(x / d)] on integers, for a positive [d]. *)
Definition Math_ceil_div (x d : Z) : Z := - ((- x) / d).

(** [!s] on a value that is a string, [null] or [undefined]. *)
Definition falsy (s : option string) : bool :=
  match s with
  | None => true
  | Some EmptyString => true
  | Some _ => false
  end.

(** [a || b] where [a] is a string or [undefined]. *)
Definition or_else (a : option string) (b : string) : string :=
  if falsy a then b else default b a.

End Js.

(** ** The rate limiter ([rate-limit.ts]) *)

Module RateLimit.
Import Js.

Record RateLimitConfig :=
  { maxRequests : Z; windowMs : Z; keyPrefix : option string }.

(** The predefined policies ([RateLimits]). *)
Definition RateLimits_auth : RateLimitConfig :=
  {| maxRequests := 10; windowMs := 15 * 60 * 1000; keyPrefix := Some "rl:auth" |}.
Definition RateLimits_api : RateLimitConfig :=
  {| maxRequests := 100; windowMs := 60 * 1000; keyPrefix := Some "rl:api" |}.
Definition RateLimits_read : RateLimitConfig :=
  {| maxRequests := 200; windowMs := 60 * 1000; keyPrefix := Some "rl:read" |}.
Definition RateLimits_write : RateLimitConfig :=
  {| maxRequests := 50; windowMs := 60 * 1000; keyPrefix := Some "rl:write" |}.

(** The value kept under a key: [{ count, resetAt }].  The middleware
    writes it with [JSON.stringify] and reads it back with
    [get(key, 'json')]. *)
Record Counter := { count : Z; resetAt : Z }.

(** A key of the KV namespace: its value, when it was put (epoch
    milliseconds) and the [expirationTtl] (seconds) it was put with. *)
Record KVEntry := { value : Counter; storedAt : Z; expirationTtl : Z }.

(** The first instant (epoch milliseconds) at which the key is gone. *)
Definition expiresAt (e : KVEntry) : Z := storedAt e + 1000 * expirationTtl e.

(** [c.env.CACHE], a Workers KV namespace.  [get_rejects] and
    [put_rejects] say whether the promise of the operation rejects (the
    store is unavailable or times out); a put rejects as well when its
    [expirationTtl] is below the least one the store takes.  A key is gone
    from the instant its expiry is reached. *)
Record KVNamespace :=
  { entries : gmap string KVEntry; get_rejects : bool; put_rejects : bool }.

(** The least [expirationTtl], in seconds, that a Workers KV namespace
    takes: the promise of a put with less rejects. *)
Definition min_expirationTtl : Z := 60.

(** Whether the store takes a put with this [expirationTtl]. *)
Definition KV_accepts (kv : KVNamespace) (ttl : Z) : bool :=
  negb (put_rejects kv) && (min_expirationTtl <=? ttl).

(** [await CACHE.get(key, 'json')]: [None] when the promise rejects,
    [Some None] for [null]. *)
Definition KV_get (kv : KVNamespace) (key : string) (now : Z)
    : option (option Counter) :=
  if get_rejects kv then None
  else Some (match entries kv !! key with
             | Some e => if now <? expiresAt e then Some (value e) else None
             | None => None
             end).

(** [await CACHE.put(key, JSON.stringify(v), { expirationTtl: ttl })]:
    [None] when the promise rejects. *)
Definition KV_put (kv : KVNamespace) (key : string) (v : Counter) (ttl now : Z)
    : option KVNamespace :=
  if KV_accepts kv ttl
  then Some {| entries :=
                 <[key := {| value := v; storedAt := now; expirationTtl := ttl |}]>
                   (entries kv);
               get_rejects := get_rejects kv;
               put_rejects := put_rejects kv |}
  else None.

Record Agent := { id : string }.

Record Env := { ENABLE_RATE_LIMITING : bool; CACHE : KVNamespace }.

Record HonoContext :=
  { env : Env;
    agent : option Agent;               (* c.get('agent') *)
    CF_Connecting_IP : option string;   (* c.req.header('CF-Connecting-IP') *)
    res_headers : gmap string string    (* c.res.headers *) }.

(** How the middleware ends: it reaches [await next()] with the headers
    it has set on [c.res], it returns a response of its own, or a rejected
    promise of the store propagates out of it. *)
Inductive Result :=
| Next (headers : gmap string string)
| Respond (status : Z) (headers : gmap string string) (body : json)
| Throws.

(** [Number.prototype.toString] on an integer. *)
Definition toString (n : Z) : string := pretty n.

Definition identifier (c : HonoContext) : string :=
  or_else (id <$> agent c) (or_else (CF_Connecting_IP c) "anonymous").

Definition key_of (config : RateLimitConfig) (c : HonoContext) : string :=
  default "ratelimit" (keyPrefix config) +:+ ":" +:+ identifier c.

Definition too_many_requests : json :=
  JObj [("success", JBool false);
        ("error", JObj [("code", JStr "RATE_LIMIT_EXCEEDED");
                        ("message", JStr "Too many requests")])].

Definition rateLimitMiddleware (config : RateLimitConfig) (c : HonoContext)
    (now : Z) : Result * KVNamespace :=
  let kv := CACHE (env c) in
  if negb (ENABLE_RATE_LIMITING (env c)) then (Next (res_headers c), kv)
  else
    let key := key_of config c in
    match KV_get kv key now with
    | None => (Throws, kv)
    | Some (Some currentData) =>
        if resetAt currentData <? now then
          match KV_put kv key {| count := 1; resetAt := now + windowMs config |}
                       (Math_ceil_div (windowMs config) 1000) now with
          | None => (Throws, kv)
          | Some kv' => (Next (res_headers c), kv')
          end
        else if maxRequests config <=? count currentData then
          let retryAfter := Math_ceil_div (resetAt currentData - now) 1000 in
          (Respond 429
             (<["Content-Type" := "application/json"]>
               (<["Retry-After" := toString retryAfter]>
                 (<["X-RateLimit-Limit" := toString (maxRequests config)]>
                   (<["X-RateLimit-Remaining" := "0"]>
                     (<["X-RateLimit-Reset" := toString (resetAt currentData)]> ∅)))))
             too_many_requests,
           kv)
        else
          match KV_put kv key
                       {| count := count currentData + 1;
                          resetAt := resetAt currentData |}
                       (Math_ceil_div (resetAt currentData - now) 1000) now with
          | None => (Throws, kv)
          | Some kv' =>
              (Next
                 (<["X-RateLimit-Reset" := toString (resetAt currentData)]>
                   (<["X-RateLimit-Remaining" :=
                        toString (maxRequests config - count currentData - 1)]>
                     (<["X-RateLimit-Limit" := toString (maxRequests config)]>
                       (res_headers c)))),
               kv')
          end
    | Some None =>
        let resetAt := now + windowMs config in
        match KV_put kv key {| count := 1; resetAt := resetAt |}
                     (Math_ceil_div (windowMs config) 1000) now with
        | None => (Throws, kv)
        | Some kv' =>
            (Next
               (<["X-RateLimit-Reset" := toString resetAt]>
                 (<["X-RateLimit-Remaining" := toString (maxRequests config - 1)]>
                   (<["X-RateLimit-Limit" := toString (maxRequests config)]>
                     (res_headers c)))),
             kv')
        end
    end.

(** The same context over another state of the store. *)
Definition with_cache (c : HonoContext) (kv : KVNamespace) : HonoContext :=
  {| env := {| ENABLE_RATE_LIMITING := ENABLE_RATE_LIMITING (env c); CACHE := kv |};
     agent := agent c;
     CF_Connecting_IP := CF_Connecting_IP c;
     res_headers := res_headers c |}.

(** Requests of one client at the instants [times], one after the other,
    each one seeing the store the one before left. *)
Fixpoint serve (config : RateLimitConfig) (c : HonoContext) (times : list Z)
    : list Result * KVNamespace :=
  match times with
  | [] => ([], CACHE (env c))
  | now :: later =>
      let '(r, kv) := rateLimitMiddleware config c now in
      let '(rs, kv') := serve config (with_cache c kv) later in
      (r :: rs, kv')
  end.

(** The request goes on to the handler. *)
Definition admitted (r : Result) : Prop :=
  match r with Next _ => True | _ => False end.

(** [X-RateLimit-Remaining] as the middleware reports it. *)
Definition remaining (r : Result) : option string :=
  match r with
  | Next h => h !! "X-RateLimit-Remaining"
  | Respond _ h _ => h !! "X-RateLimit-Remaining"
  | Throws => None
  end.

(** *** What the statements below speak of *)

(** The store without the key. *)
Definition KV_without (kv : KVNamespace) (key : string) : KVNamespace :=
  {| entries := delete key (entries kv);
     get_rejects := get_rejects kv;
     put_rejects := put_rejects kv |}.

(** The store after a put that succeeded. *)
Definition KV_with (kv : KVNamespace) (key : string) (v : Counter) (ttl now : Z)
    : KVNamespace :=
  {| entries :=
       <[key := {| value := v; storedAt := now; expirationTtl := ttl |}]>
         (entries kv);
     get_rejects := get_rejects kv;
     put_rejects := put_rejects kv |}.



(** *** Scenarios *)

Definition empty_store : KVNamespace :=
  {| entries := ∅; get_rejects := false; put_rejects := false |}.

Definition unavailable_store : KVNamespace :=
  {| entries := ∅; get_rejects := true; put_rejects := true |}.

(** An anonymous client behind one address, limiter switched on. *)
Definition client (kv : KVNamespace) : HonoContext :=
  {| env := {| ENABLE_RATE_LIMITING := true; CACHE := kv |};
     agent := None;
     CF_Connecting_IP := Some "203.0.113.7";
     res_headers := ∅ |}.

Definition three_per_minute : RateLimitConfig :=
  {| maxRequests := 3; windowMs := 60000; keyPrefix := None |}.

Definition two_per_minute : RateLimitConfig :=
  {| maxRequests := 2; windowMs := 60000; keyPrefix := None |}.


(** The store after three requests at 0 ms, 1 ms and 2 ms under
    [three_per_minute]: the key lives until 60002 ms. *)
Definition exhausted_store : KVNamespace :=
  KV_with empty_store "ratelimit:203.0.113.7"
    {| count := 3; resetAt := 60000 |} 60 2.

(** The store after two requests at 0 ms and 1 ms under
    [two_per_minute]: the key lives until 60001 ms. *)
Definition boundary_store : KVNamespace :=
  KV_with empty_store "ratelimit:203.0.113.7"
    {| count := 2; resetAt := 60000 |} 60 1.

(** The store after two requests at 500 ms and 1200 ms under
    [three_per_minute]: the window ends at 60500 ms, the key lives until
    61200 ms. *)
Definition stale_store : KVNamespace :=
  KV_with empty_store "ratelimit:203.0.113.7"
    {| count := 2; resetAt := 60500 |} 60 1200.

(** The middleware answered 429 itself. *)
Definition rejected (r : Result) : Prop :=
  match r with Respond status _ _ => status = 429 | _ => False end.

(** A counter of at least one request whose key lives to the end of its
    window and less than a second longer. *)
Definition entry_ok (e : KVEntry) : Prop :=
  1 ≤ count (value e) ∧
  resetAt (value e) ≤ expiresAt e < resetAt (value e) + 1000.

(** Another client, behind another address. *)
Definition other_client (kv : KVNamespace) : HonoContext :=
  {| env := {| ENABLE_RATE_LIMITING := true; CACHE := kv |};
     agent := None;
     CF_Connecting_IP := Some "198.51.100.9";
     res_headers := ∅ |}.

(** The limiter switched off, the store unavailable. *)
Definition unlimited_client : HonoContext :=
  {| env := {| ENABLE_RATE_LIMITING := false; CACHE := unavailable_store |};
     agent := None;
     CF_Connecting_IP := Some "203.0.113.7";
     res_headers := ∅ |}.

End RateLimit.

(** ** The realtime hub ([realtime.ts]) *)

Module Realtime.
Import Js.

(** A WebSocket is an opaque handle; the [Map] compares handles by
    identity. *)
Definition WebSocket := nat.

Record Session := { agentId : string; workspaceId : string }.

#[global] Instance Session_eq_dec : EqDecision Session.
Proof. solve_decision. Defined.

(** [this.sessions]: a JavaScript [Map], which iterates in insertion
    order and holds a key at most once. *)
Abbreviation SessionMap := (list (WebSocket * Session)).

Fixpoint Map_get (ws : WebSocket) (m : SessionMap) : option Session :=
  match m with
  | [] => None
  | (ws', s) :: rest => if Nat.eqb ws' ws then Some s else Map_get ws rest
  end.

Fixpoint Map_set (ws : WebSocket) (s : Session) (m : SessionMap) : SessionMap :=
  match m with
  | [] => [(ws, s)]
  | (ws', s') :: rest =>
      if Nat.eqb ws' ws then (ws, s) :: rest else (ws', s') :: Map_set ws s rest
  end.

Fixpoint Map_delete (ws : WebSocket) (m : SessionMap) : SessionMap :=
  match m with
  | [] => []
  | (ws', s) :: rest =>
      if Nat.eqb ws' ws then Map_delete ws rest else (ws', s) :: Map_delete ws rest
  end.

(** The keys of a [Map] are pairwise distinct. *)
Definition Map_wf (m : SessionMap) : Prop := NoDup (m.*1).

(** What can be thrown inside the handlers. *)
Inductive Exn := SyntaxError | TypeError | SendError.

(** One call of [ws.send(data)]: [delivered] is [false] when the call
    threw. *)
Record SendEvent := { target : WebSocket; data : json; delivered : bool }.

Inductive Completion (A : Type) : Type :=
| Returns (a : A)
| Throws (e : Exn).
Arguments Returns {A} a.
Arguments Throws {A} e.

(** The result of running a piece of handler code: how it completed, the
    registry it leaves, and the sends it made, oldest first. *)
Record Outcome (A : Type) : Type :=
  { completion : Completion A; registry : SessionMap; sent : list SendEvent }.
Arguments completion {A} o.
Arguments registry {A} o.
Arguments sent {A} o.

Definition Eff (A : Type) : Type := SessionMap -> Outcome A.

Definition ret {A} (a : A) : Eff A :=
  fun m => {| completion := Returns a; registry := m; sent := [] |}.

Definition throw {A} (e : Exn) : Eff A :=
  fun m => {| completion := Throws e; registry := m; sent := [] |}.

Definition bind {A B} (c : Eff A) (k : A -> Eff B) : Eff B :=
  fun m =>
    let o := c m in
    match completion o with
    | Returns a =>
        let o' := k a (registry o) in
        {| completion := completion o'; registry := registry o';
           sent := sent o ++ sent o' |}
    | Throws e =>
        {| completion := Throws e; registry := registry o; sent := sent o |}
    end.

(** [try { c } catch (error) { h error }] *)
Definition try_catch {A} (c : Eff A) (h : Exn -> Eff A) : Eff A :=
  fun m =>
    let o := c m in
    match completion o with
    | Returns a => o
    | Throws e =>
        let o' := h e (registry o) in
        {| completion := completion o'; registry := registry o';
           sent := sent o ++ sent o' |}
    end.

Notation "x <- c ;; k" := (bind c (fun x => k))
  (at level 100, c at next level, right associativity).
Notation "c ;;; k" := (bind c (fun _ => k))
  (at level 100, right associativity).

Definition sessions_get (ws : WebSocket) : Eff (option Session) :=
  fun m => ret (Map_get ws m) m.

Definition sessions_entries : Eff SessionMap := fun m => ret m m.

Definition sessions_set (ws : WebSocket) (s : Session) : Eff unit :=
  fun m => ret tt (Map_set ws s m).

Definition sessions_delete (ws : WebSocket) : Eff unit :=
  fun m => ret tt (Map_delete ws m).

(** [console.log] and [console.error] have no effect on the hub. *)
Definition console : Eff unit := ret tt.

(** An inbound frame: [string | ArrayBuffer]. *)
Inductive Message :=
| Text (s : string)
| Binary (bytes : list Byte.byte).

Record Request :=
  { Upgrade : option string;              (* request.headers.get('Upgrade') *)
    searchParams : list (string * string) (* url.searchParams *) }.

Fixpoint searchParams_get (k : string) (ps : list (string * string)) : option string :=
  match ps with
  | [] => None
  | (k', v) :: rest => if String.eqb k' k then Some v else searchParams_get k rest
  end.

Inductive Body := NoBody | TextBody (s : string).

Record Response := { body : Body; status : Z; webSocket : option WebSocket }.

(** *** A scenario: two agents of W1, one of them gone, and one of W2 *)

Definition dquote : string := String "034"%char EmptyString.

(** The text of [{ type: 'broadcast', workspaceId: 'W2' }]. *)
Definition broadcast_text : string :=
  "{" +:+ dquote +:+ "type" +:+ dquote +:+ ":" +:+ dquote +:+ "broadcast" +:+ dquote
  +:+ "," +:+ dquote +:+ "workspaceId" +:+ dquote +:+ ":" +:+ dquote +:+ "W2"
  +:+ dquote +:+ "}".

Definition broadcast_fields : object :=
  [("type", JStr "broadcast"); ("workspaceId", JStr "W2")].

(** [JSON.parse] on the texts of the scenario; every other text used in
    it is no JSON. *)
Definition scenario_parse (s : string) : option json :=
  if String.eqb s broadcast_text then Some (JObj broadcast_fields)
  else if String.eqb s "null" then Some JNull
  else if String.eqb s "42" then Some (JNum 42)
  else None.

(** The peer of socket 2 is gone. *)
Definition scenario_send_throws (ws : WebSocket) (d : json) : bool := Nat.eqb ws 2.

Definition scenario_registry : SessionMap :=
  [(1%nat, {| agentId := "A1"; workspaceId := "W1" |});
   (2%nat, {| agentId := "A2"; workspaceId := "W1" |});
   (3%nat, {| agentId := "A3"; workspaceId := "W2" |})].

Definition ticket_updated : object :=
  [("type", JStr "ticket_updated"); ("payload", JObj [("id", JNum 7)])].

Definition plain_request : Request :=
  {| Upgrade := None;
     searchParams := [("agentId", "A4"); ("workspaceId", "W1")] |}.

Definition anonymous_upgrade : Request :=
  {| Upgrade := Some "websocket";
     searchParams := [("agentId", "A4"); ("workspaceId", EmptyString)] |}.

(** The texts of [{ type: 'ping' }] and of
    [{ type: 'subscribe', payload: 'tickets' }]. *)
Definition ping_text : string :=
  "{" +:+ dquote +:+ "type" +:+ dquote +:+ ":" +:+ dquote +:+ "ping" +:+ dquote +:+ "}".

Definition subscribe_text : string :=
  "{" +:+ dquote +:+ "type" +:+ dquote +:+ ":" +:+ dquote +:+ "subscribe" +:+ dquote
  +:+ "," +:+ dquote +:+ "payload" +:+ dquote +:+ ":" +:+ dquote +:+ "tickets"
  +:+ dquote +:+ "}".

Definition subscribe_fields : object :=
  [("type", JStr "subscribe"); ("payload", JStr "tickets")].

(** [JSON.parse] on these texts and on those of [scenario_parse]. *)
Definition control_parse (s : string) : option json :=
  if String.eqb s ping_text then Some (JObj [("type", JStr "ping")])
  else if String.eqb s subscribe_text then Some (JObj subscribe_fields)
  else scenario_parse s.

Definition upgrade_request : Request :=
  {| Upgrade := Some "websocket";
     searchParams := [("agentId", "A4"); ("workspaceId", "W1")] |}.

Section Hub.

(** [JSON.parse]; [None] when it throws. *)
Variable JSON_parse : string -> option json.

(** Whether [ws.send(data)] throws (the peer is gone, say). *)
Variable send_throws : WebSocket -> json -> bool.

Definition ws_send (ws : WebSocket) (d : json) : Eff unit :=
  fun m =>
    if send_throws ws d
    then {| completion := Throws SendError; registry := m;
            sent := [{| target := ws; data := d; delivered := false |}] |}
    else {| completion := Returns tt; registry := m;
            sent := [{| target := ws; data := d; delivered := true |}] |}.

Definition connected_frame (agent tenant : string) (now : Z) : json :=
  JObj [("type", JStr "connected");
        ("payload",
          JObj [("message", JStr "Connected to Enque real-time server");
                ("workspaceId", JStr tenant);
                ("agentId", JStr agent)]);
        ("timestamp", JNum now)].

Definition pong_frame (now : Z) : json :=
  JObj [("type", JStr "pong"); ("timestamp", JNum now)].

Definition subscribed_frame (payload : option json) (now : Z) : json :=
  JObj ([("type", JStr "subscribed")] ++ optional_prop "payload" payload
          ++ [("timestamp", JNum now)]).

Definition error_frame (now : Z) : json :=
  JObj [("type", JStr "error");
        ("payload", JObj [("message", JStr "Failed to process message")]);
        ("timestamp", JNum now)].

(** [{ ...message, timestamp: Date.now() }] *)
Definition stamped (message : object) (now : Z) : json :=
  JObj (prop_set "timestamp" (JNum now) message).

(** The loop of [broadcast].  Its body deletes no entry but the one it
    is visiting, so the live iterator of the [Map] visits the entries
    that were there when the loop started. *)
Fixpoint broadcast_loop (entries : SessionMap) (messageStr : json)
    (tenant : string) : Eff unit :=
  match entries with
  | [] => ret tt
  | (ws, session) :: rest =>
      (if String.eqb (workspaceId session) tenant
       then try_catch (ws_send ws messageStr)
                      (fun _ => console ;;; sessions_delete ws)
       else ret tt) ;;;
      broadcast_loop rest messageStr tenant
  end.

Definition broadcast (message : object) (tenant : string) (now : Z) : Eff unit :=
  let messageStr := stamped message now in
  entries <- sessions_entries ;;
  broadcast_loop entries messageStr tenant.

Definition notifyClients (tenant : string) (message : object) (now : Z) : Eff unit :=
  broadcast message tenant now.

(** [fetch]: [pair] is the [WebSocketPair] the platform creates, client
    end first. *)
Definition fetch (request : Request) (pair : WebSocket * WebSocket) (now : Z)
    : Eff Response :=
  if negb (bool_decide (Upgrade request = Some "websocket"))
  then ret {| body := TextBody "Expected WebSocket"; status := 426;
              webSocket := None |}
  else
    let agent := searchParams_get "agentId" (searchParams request) in
    let tenant := searchParams_get "workspaceId" (searchParams request) in
    if falsy agent || falsy tenant
    then ret {| body := TextBody "Missing agentId or workspaceId"; status := 400;
                webSocket := None |}
    else
      let '(client, server) := pair in           (* acceptWebSocket(server) *)
      let agent := default EmptyString agent in
      let tenant := default EmptyString tenant in
      sessions_set server {| agentId := agent; workspaceId := tenant |} ;;;
      ws_send server (connected_frame agent tenant now) ;;;
      ret {| body := NoBody; status := 101; webSocket := Some client |}.

(** The [switch (data.type)] of [webSocketMessage]. *)
Definition dispatch (ws : WebSocket) (session : Session) (fields : object)
    (now : Z) : Eff unit :=
  match prop_get "type" fields with
  | Some (JStr t) =>
      if String.eqb t "ping" then ws_send ws (pong_frame now)
      else if String.eqb t "subscribe"
      then ws_send ws (subscribed_frame (prop_get "payload" fields) now)
      else if String.eqb t "broadcast"
      then broadcast fields (workspaceId session) now
      else console
  | _ => console
  end.

Definition webSocketMessage (ws : WebSocket) (message : Message) (now : Z)
    : Eff unit :=
  session <- sessions_get ws ;;
  match session with
  | None => ret tt
  | Some session =>
      try_catch
        (match message with
         | Text s =>
             match JSON_parse s with
             | None => throw SyntaxError
             | Some JNull => throw TypeError       (* null.type *)
             | Some (JObj fields) => dispatch ws session fields now
             | Some _ => console                   (* no property type *)
             end
         | Binary _ => ret tt
         end)
        (fun _ => console ;;; ws_send ws (error_frame now))
  end.

Definition webSocketClose (ws : WebSocket) : Eff unit :=
  sessions_delete ws ;;; console.

Definition webSocketError (ws : WebSocket) : Eff unit :=
  console ;;; sessions_delete ws.

(** *** What the statements below speak of *)

(** The sessions a fan-out scoped to [tenant] addresses. *)
Definition recipients (tenant : string) (m : SessionMap) : SessionMap :=
  filter (λ e, workspaceId e.2 = tenant) m.

(** The one call of [send] on the socket of an entry. *)
Definition attempt (d : json) (e : WebSocket * Session) : SendEvent :=
  {| target := e.1; data := d; delivered := negb (send_throws e.1 d) |}.

(** The sockets of [tenant] whose [send] of [d] throws. *)
Definition unreachable (d : json) (tenant : string) (m : SessionMap)
    : list WebSocket :=
  (filter (λ e, send_throws e.1 d = true) (recipients tenant m)).*1.

(** Every send of [evs] goes to a socket that [m] registers under
    [tenant]. *)
Definition within (tenant : string) (m : SessionMap) (evs : list SendEvent) : Prop :=
  ∀ ev, ev ∈ evs →
    ∃ s, Map_get (target ev) m = Some s ∧ workspaceId s = tenant.

(** What the platform makes the hub do: the constructor leaves an empty
    [Map], then the handlers run one at a time. *)
Inductive Event :=
| EvFetch (request : Request) (sockets : WebSocket * WebSocket) (now : Z)
| EvMessage (ws : WebSocket) (message : Message) (now : Z)
| EvNotify (tenant : string) (message : object) (now : Z)
| EvClose (ws : WebSocket)
| EvError (ws : WebSocket).

(** The registry a handler leaves, whether it returned or threw. *)
Definition handle (m : SessionMap) (e : Event) : SessionMap :=
  match e with
  | EvFetch request sockets now => registry (fetch request sockets now m)
  | EvMessage ws message now => registry (webSocketMessage ws message now m)
  | EvNotify tenant message now => registry (notifyClients tenant message now m)
  | EvClose ws => registry (webSocketClose ws m)
  | EvError ws => registry (webSocketError ws m)
  end.

(** The registry after the events, from [new Map()]. *)
Definition run_events (events : list Event) : SessionMap :=
  foldl handle [] events.

(** Both identifiers of every registered session are non-empty. *)
Definition identified (m : SessionMap) : Prop :=
  ∀ ws s, (ws, s) ∈ m → agentId s ≠ EmptyString ∧ workspaceId s ≠ EmptyString.

(** The frame is a [broadcast] message. *)
Definition is_broadcast (message : Message) : Prop :=
  ∃ text fields,
    message = Text text ∧ JSON_parse text = Some (JObj fields) ∧
    prop_get "type" fields = Some (JStr "broadcast").

(** *** The [Map] *)

Lemma Map_get_elem_of ws s m : Map_get ws m = Some s → (ws, s) ∈ m.
Proof.
  induction m as [|[ws' s'] m IH]; simpl; [done|].
  destruct (Nat.eqb_spec ws' ws) as [->|_].
  - intros [= ->]. left.
  - intros H. right. by apply IH.
Qed.

Lemma Map_get_wf ws s m : Map_wf m → (ws, s) ∈ m → Map_get ws m = Some s.
Proof.
  unfold Map_wf. induction m as [|[ws' s'] m IH]; simpl.
  - intros _ H. by apply elem_of_nil in H.
  - rewrite NoDup_cons. intros [Hfresh Hwf] Hin.
    apply elem_of_cons in Hin as [[= -> ->]|Hin].
    + by rewrite Nat.eqb_refl.
    + destruct (Nat.eqb_spec ws' ws) as [->|_]; [|by apply IH].
      destruct Hfresh. apply list_elem_of_fmap. by exists (ws, s).
Qed.

Lemma Map_delete_filter ws m : Map_delete ws m = filter (λ e, e.1 ≠ ws) m.
Proof.
  induction m as [|[ws' s'] m IH]; [done|].
  cbn [Map_delete]. destruct (Nat.eqb_spec ws' ws) as [->|Hne].
  - rewrite filter_cons_False; [done|]. intros H. by apply H.
  - rewrite filter_cons_True; [|done]. by rewrite IH.
Qed.

Lemma Map_get_without ws (gone : list WebSocket) m :
  Map_get ws (filter (λ e, e.1 ∉ gone) m) =
    if decide (ws ∈ gone) then None else Map_get ws m.
Proof.
  induction m as [|[ws' s'] m IH].
  - by destruct (decide (ws ∈ gone)).
  - rewrite filter_cons. cbn [fst Map_get].
    destruct (decide (ws' ∉ gone)) as [Hout|Hin]; cbn [Map_get];
      destruct (Nat.eqb_spec ws' ws) as [->|Hne].
    + by rewrite decide_False.
    + done.
    + rewrite IH. destruct (decide (ws ∈ gone)); [done|]. by destruct Hin.
    + done.
Qed.

Lemma Map_wf_delete ws m : Map_wf m → Map_wf (Map_delete ws m).
Proof.
  unfold Map_wf. induction m as [|[ws' s'] m IH]; simpl; [done|].
  rewrite NoDup_cons. intros [Hfresh Hwf].
  destruct (Nat.eqb_spec ws' ws) as [->|Hne]; [by apply IH|].
  simpl. apply NoDup_cons. split; [|by apply IH].
  intros Hin. apply Hfresh.
  apply list_elem_of_fmap in Hin as [[k v] [-> Hin]].
  rewrite Map_delete_filter in Hin. apply list_elem_of_filter in Hin as [_ Hin].
  apply list_elem_of_fmap. by exists (k, v).
Qed.

Lemma Map_set_keys ws s m k : k ∈ (Map_set ws s m).*1 ↔ k = ws ∨ k ∈ m.*1.
Proof.
  induction m as [|[ws' s'] m IH]; simpl.
  - rewrite list_elem_of_singleton. rewrite elem_of_nil. tauto.
  - destruct (Nat.eqb_spec ws' ws) as [->|Hne]; simpl.
    + rewrite !elem_of_cons. tauto.
    + rewrite !elem_of_cons, IH. tauto.
Qed.

Lemma Map_wf_set ws s m : Map_wf m → Map_wf (Map_set ws s m).
Proof.
  unfold Map_wf. induction m as [|[ws' s'] m IH]; simpl.
  - intros _. apply NoDup_singleton.
  - rewrite NoDup_cons. intros [Hfresh Hwf].
    destruct (Nat.eqb_spec ws' ws) as [->|Hne]; simpl.
    + by apply NoDup_cons.
    + apply NoDup_cons. split; [|by apply IH].
      rewrite Map_set_keys. intros [->|Hin]; [done|by apply Hfresh].
Qed.

(** *** The fan-out *)

Lemma filter_all {A} (P : A → Prop) `{!∀ x, Decision (P x)} (l : list A) :
  (∀ x, P x) → filter P l = l.
Proof.
  intros HP. induction l as [|x l IH]; [done|].
  by rewrite filter_cons_True, IH.
Qed.

(** The loop ends normally whatever the sockets do, calls [send] once on
    each addressed entry, in order, and leaves the registry without the
    sockets that threw. *)
Lemma broadcast_loop_run entries d tenant m :
  broadcast_loop entries d tenant m =
    {| completion := Returns tt;
       registry := filter (λ e, e.1 ∉ unreachable d tenant entries) m;
       sent := attempt d <$> recipients tenant entries |}.
Proof using send_throws.
  revert m. induction entries as [|[ws s] rest IH]; intros m.
  - cbn [broadcast_loop]. unfold ret. f_equal. symmetry. apply filter_all.
    intros x Hx. by apply elem_of_nil in Hx.
  - cbn [broadcast_loop]. unfold bind at 1.
    unfold unreachable, recipients in IH |- *. rewrite filter_cons. cbn [snd].
    destruct (String.eqb_spec (workspaceId s) tenant) as [Ht|Ht].
    + rewrite decide_True by done. rewrite filter_cons. cbn [fst].
      unfold try_catch, ws_send.
      destruct (send_throws ws d) eqn:Hsend.
      * rewrite decide_True by done. cbn. rewrite IH. cbn.
        f_equal; [|unfold attempt; cbn; by rewrite Hsend].
        rewrite Map_delete_filter, list_filter_filter.
        apply list_filter_iff. intros [k v]. cbn [fst].
        rewrite not_elem_of_cons. split; intros [? ?]; by split.
      * rewrite decide_False by done. cbn. rewrite IH. cbn.
        f_equal. unfold attempt. cbn. by rewrite Hsend.
    + rewrite decide_False by done. cbn. by rewrite IH.
Qed.

Lemma broadcast_run message tenant now m :
  broadcast message tenant now m =
    {| completion := Returns tt;
       registry := filter (λ e, e.1 ∉ unreachable (stamped message now) tenant m) m;
       sent := attempt (stamped message now) <$> recipients tenant m |}.
Proof.
  unfold broadcast, bind, sessions_entries. simpl.
  by rewrite broadcast_loop_run.
Qed.

Lemma recipients_within tenant m d :
  Map_wf m → within tenant m (attempt d <$> recipients tenant m).
Proof.
  intros Hwf ev Hev.
  apply list_elem_of_fmap in Hev as [[ws s] [-> Hin]].
  apply list_elem_of_filter in Hin as [Ht Hin]. simpl in *.
  exists s. split; [by apply Map_get_wf|done].
Qed.

Lemma within_nil tenant m : within tenant m [].
Proof. intros ev Hev. by apply elem_of_nil in Hev. Qed.

Lemma within_app tenant m evs evs' :
  within tenant m evs → within tenant m evs' → within tenant m (evs ++ evs').
Proof.
  intros H H' ev Hev. apply elem_of_app in Hev as [Hev|Hev]; [by apply H|by apply H'].
Qed.

Lemma ws_send_registry ws d m : registry (ws_send ws d m) = m.
Proof. unfold ws_send. by destruct (send_throws ws d). Qed.

Lemma ws_send_within_any ws session d m m' :
  Map_get ws m = Some session →
  within (workspaceId session) m (sent (ws_send ws d m')).
Proof.
  intros Hws ev Hev. unfold ws_send in Hev.
  destruct (send_throws ws d); simpl in Hev;
    apply list_elem_of_singleton in Hev as ->; simpl; eauto.
Qed.

Lemma dispatch_within ws session fields now m :
  Map_wf m → Map_get ws m = Some session →
  within (workspaceId session) m (sent (dispatch ws session fields now m)).
Proof.
  intros Hwf Hws. unfold dispatch.
  destruct (prop_get "type" fields) as [[| | |t| |]|]; try apply within_nil.
  destruct (String.eqb t "ping"); [by apply ws_send_within_any|].
  destruct (String.eqb t "subscribe"); [by apply ws_send_within_any|].
  destruct (String.eqb t "broadcast"); [|apply within_nil].
  rewrite broadcast_run. cbn [sent]. by apply recipients_within.
Qed.

(** The sends of an inbound frame stay in the sender's workspace: the
    replies go to the sender, a broadcast to the sender's workspace. *)
Lemma webSocketMessage_within ws session message now m :
  Map_wf m → Map_get ws m = Some session →
  within (workspaceId session) m (sent (webSocketMessage ws message now m)).
Proof.
  intros Hwf Hws. unfold webSocketMessage, bind at 1, sessions_get.
  cbn [ret completion registry sent]. rewrite Hws. cbn [app].
  unfold try_catch.
  set (body := match message with Text _ => _ | Binary _ => _ end).
  assert (within (workspaceId session) m (sent (body m))) as Hbody.
  { subst body. destruct message as [text|bytes]; [|apply within_nil].
    destruct (JSON_parse text) as [[| | | | |fields]|]; try apply within_nil.
    by apply dispatch_within. }
  destruct (completion (body m)); [done|].
  cbn [sent]. apply within_app; [done|].
  unfold console, bind. cbn. by apply ws_send_within_any.
Qed.

(** In a registry with distinct keys, sends that stay within a workspace
    reach no session of another one. *)
Lemma within_excludes tenant m evs ws s :
  Map_wf m → within tenant m evs →
  (ws, s) ∈ m → workspaceId s ≠ tenant →
  ∀ ev, ev ∈ evs → target ev ≠ ws.
Proof.
  intros Hwf Hin Hws Hne ev Hev Heq.
  destruct (Hin ev Hev) as (s' & Hget & Ht).
  rewrite Heq, (Map_get_wf _ _ _ Hwf Hws) in Hget. congruence.
Qed.

(** *** The claims on the hub *)

(** Reading a property of [{ ...o, k: v }]. *)
Lemma prop_get_set_eq k v (o : object) : prop_get k (prop_set k v o) = Some v.
Proof.
  induction o as [|[k' v'] o IH]; cbn [prop_set prop_get].
  - by rewrite String.eqb_refl.
  - destruct (String.eqb_spec k' k) as [->|Hne]; cbn [prop_get].
    + by rewrite String.eqb_refl.
    + by destruct (String.eqb_spec k' k).
Qed.

Lemma prop_get_set_ne k k' v (o : object) :
  k' ≠ k → prop_get k' (prop_set k v o) = prop_get k' o.
Proof.
  intros Hne. induction o as [|[k0 v0] o IH]; cbn [prop_set prop_get].
  - by destruct (String.eqb_spec k k').
  - destruct (String.eqb_spec k0 k) as [->|Hk0]; cbn [prop_get].
    + by destruct (String.eqb_spec k k').
    + by rewrite IH.
Qed.

Lemma prop_set_length k v (o : object) :
  (length o ≤ length (prop_set k v o) ≤ S (length o))%nat.
Proof.
  induction o as [|[k0 v0] o IH]; cbn [prop_set length]; [lia|].
  destruct (String.eqb k0 k); cbn [length]; lia.
Qed.

(** C1.  Whatever the registry holds, a delivery scoped to a workspace,
    through [notifyClients] or through an inbound frame of a session bound
    to that workspace (a [broadcast] frame among them), calls [send] only
    on sockets that the registry binds to that workspace; a session that
    is registered under another workspace gets no frame. *)
Theorem delivery_stays_in_tenant (m : SessionMap) (Hwf : Map_wf m) :
  (∀ tenant message now,
     let evs := sent (notifyClients tenant message now m) in
     within tenant m evs ∧
     ∀ ws s, (ws, s) ∈ m → workspaceId s ≠ tenant →
       ∀ ev, ev ∈ evs → target ev ≠ ws) ∧
  (∀ ws session message now,
     Map_get ws m = Some session →
     let evs := sent (webSocketMessage ws message now m) in
     within (workspaceId session) m evs ∧
     ∀ ws' s', (ws', s') ∈ m → workspaceId s' ≠ workspaceId session →
       ∀ ev, ev ∈ evs → target ev ≠ ws').
Proof.
  split.
  - intros tenant message now evs.
    assert (within tenant m evs) as Hin.
    { subst evs. unfold notifyClients. rewrite broadcast_run. cbn [sent].
      by apply recipients_within. }
    split; [done|]. intros ws s Hws Hne. by eapply within_excludes.
  - intros ws session message now Hws evs.
    assert (within (workspaceId session) m evs) as Hin
      by by apply webSocketMessage_within.
    split; [done|]. intros ws' s' Hws' Hne. by eapply within_excludes.
Qed.

(** C2.  A [broadcast] frame from a registered session is fanned out by
    the workspace the session was bound to when it connected: the handler
    calls [send] once on every session registered under that workspace,
    the sender included, and on no other.  What it sends is the frame that
    came, a [broadcast] message with every property it came with (a
    [workspaceId] among them, which only travels in it), but for the
    timestamp, which is the hub's. *)
Theorem inbound_broadcast_reaches_tenant (m : SessionMap) (ws : WebSocket)
    (session : Session) (text : string) (fields : object) (now : Z) :
  Map_get ws m = Some session →
  JSON_parse text = Some (JObj fields) →
  prop_get "type" fields = Some (JStr "broadcast") →
  let o := webSocketMessage ws (Text text) now m in
  let d := stamped fields now in
  completion o = Returns tt ∧
  sent o = attempt d <$> recipients (workspaceId session) m ∧
  target <$> sent o = (recipients (workspaceId session) m).*1 ∧
  (∀ ws' s', (ws', s') ∈ m → workspaceId s' = workspaceId session →
     attempt d (ws', s') ∈ sent o) ∧
  attempt d (ws, session) ∈ sent o ∧
  (∀ ev, ev ∈ sent o → data ev = d) ∧
  (∃ frame,
     d = JObj frame ∧
     prop_get "type" frame = Some (JStr "broadcast") ∧
     prop_get "timestamp" frame = Some (JNum now) ∧
     (∀ k, k ≠ "timestamp" → prop_get k frame = prop_get k fields) ∧
     (length fields ≤ length frame ≤ S (length fields))%nat).
Proof.
  intros Hws Hparse Htype o d.
  assert (o = {| completion := Returns tt;
                 registry := filter (λ e, e.1 ∉ unreachable d (workspaceId session) m) m;
                 sent := attempt d <$> recipients (workspaceId session) m |}) as ->.
  { subst o d. unfold webSocketMessage, bind at 1, sessions_get.
    cbn [ret completion registry sent]. rewrite Hws, Hparse.
    unfold try_catch, dispatch. rewrite Htype. cbn [String.eqb Ascii.eqb Bool.eqb].
    by rewrite broadcast_run. }
  cbn [completion sent].
  assert (∀ ws' s', (ws', s') ∈ m → workspaceId s' = workspaceId session →
            attempt d (ws', s') ∈ attempt d <$> recipients (workspaceId session) m)
    as Hall.
  { intros ws' s' Hin Ht. apply list_elem_of_fmap_2.
    apply list_elem_of_filter. by split. }
  split; [done|]. split; [done|]. split; [|split; [done|split; [|split]]].
  - rewrite <- list_fmap_compose. by apply list_fmap_ext.
  - apply Hall; [by apply Map_get_elem_of|done].
  - intros ev Hev. apply list_elem_of_fmap in Hev as (e & -> & _). done.
  - exists (prop_set "timestamp" (JNum now) fields). split; [done|].
    split; [by rewrite prop_get_set_ne|].
    split; [apply prop_get_set_eq|]. split; [|apply prop_set_length].
    intros k Hk. by apply prop_get_set_ne.
Qed.

(** C7.  A fan-out never fails towards its caller: [broadcast] returns
    normally whatever the sockets do.  It calls [send] on every session of
    the workspace, also on those that come after one whose [send] threw;
    a session whose [send] throws is deleted from the registry in the
    same step of the loop, before the next session is visited, and every
    other session stays registered as it was. *)
Theorem fanout_failure_is_local (m : SessionMap) (message : object)
    (tenant : string) (now : Z) :
  let d := stamped message now in
  let o := broadcast message tenant now m in
  completion o = Returns tt ∧
  (∀ ws s, (ws, s) ∈ m → workspaceId s = tenant → attempt d (ws, s) ∈ sent o) ∧
  (∀ ws s, (ws, s) ∈ m → workspaceId s = tenant → send_throws ws d = true →
     Map_get ws (registry o) = None) ∧
  (∀ ws, ws ∉ unreachable d tenant m → Map_get ws (registry o) = Map_get ws m) ∧
  (∀ ws s rest m', workspaceId s = tenant → send_throws ws d = true →
     let o' := broadcast_loop rest d tenant (Map_delete ws m') in
     broadcast_loop ((ws, s) :: rest) d tenant m' =
       {| completion := completion o'; registry := registry o';
          sent := attempt d (ws, s) :: sent o' |}).
Proof.
  intros d o. subst o d. rewrite broadcast_run. cbn [completion sent registry].
  set (d := stamped message now).
  split; [done|]. split; [|split; [|split]].
  - intros ws s Hin Ht. apply list_elem_of_fmap_2.
    apply list_elem_of_filter. by split.
  - intros ws s Hin Ht Hsend.
    rewrite Map_get_without, decide_True; [done|].
    unfold unreachable, recipients.
    apply list_elem_of_fmap. exists (ws, s). split; [done|].
    apply list_elem_of_filter. split; [done|]. apply list_elem_of_filter. by split.
  - intros ws Hws. by rewrite Map_get_without, decide_False.
  - intros ws s rest m' Ht Hsend.
    cbn [broadcast_loop]. apply String.eqb_eq in Ht. rewrite Ht.
    unfold bind at 1, try_catch, ws_send, attempt. cbn [fst]. rewrite Hsend.
    cbn. done.
Qed.

(** C8.  A text frame that [JSON.parse] rejects, from a registered
    session, makes the handler call [send] once: on the sender, with an
    [error] frame, whose payload is the message
    [Failed to process message] and whose timestamp is the hub's.  Nothing
    is sent to another session, the registry is left as it was (so the
    sender stays registered), and the handler does nothing to the
    connection besides that send. *)
Theorem unparseable_frame_is_answered (m : SessionMap) (ws : WebSocket)
    (session : Session) (text : string) (now : Z) :
  Map_get ws m = Some session →
  JSON_parse text = None →
  let o := webSocketMessage ws (Text text) now m in
  sent o = [attempt (error_frame now) (ws, session)] ∧
  (∀ ev, ev ∈ sent o → target ev = ws ∧ data ev = error_frame now) ∧
  registry o = m ∧
  Map_get ws (registry o) = Some session ∧
  (send_throws ws (error_frame now) = false →
     completion o = Returns tt ∧
     sent o = [{| target := ws; data := error_frame now; delivered := true |}]) ∧
  (∃ frame,
     error_frame now = JObj frame ∧
     prop_get "type" frame = Some (JStr "error") ∧
     prop_get "payload" frame
       = Some (JObj [("message", JStr "Failed to process message")]) ∧
     prop_get "timestamp" frame = Some (JNum now) ∧
     length frame = 3%nat).
Proof.
  intros Hws Hparse o.
  assert (o = {| completion := if send_throws ws (error_frame now)
                               then Throws SendError else Returns tt;
                 registry := m;
                 sent := [attempt (error_frame now) (ws, session)] |}) as ->.
  { subst o. unfold webSocketMessage, bind at 1, sessions_get.
    cbn [ret completion registry sent]. rewrite Hws, Hparse.
    unfold try_catch, throw, console, bind, ret, ws_send, attempt. cbn.
    by destruct (send_throws ws (error_frame now)). }
  cbn [completion sent registry].
  split; [done|]. split; [|split; [done|split; [done|split]]].
  - intros ev Hev. by apply list_elem_of_singleton in Hev as ->.
  - intros Hok. rewrite Hok. split; [done|].
    unfold attempt. cbn [fst]. by rewrite Hok.
  - by eexists.
Qed.

(** C9.  [fetch] answers a request that is not a WebSocket upgrade with
    426 and an upgrade request without a non-empty [agentId] or
    [workspaceId] with 400; a request without the identifiers is refused
    with a 4xx status in either case.  A refusal carries no socket,
    registers no session and sends nothing. *)
Theorem fetch_refuses_bad_requests (m : SessionMap) (request : Request)
    (pair : WebSocket * WebSocket) (now : Z) :
  let o := fetch request pair now m in
  let missing :=
    falsy (searchParams_get "agentId" (searchParams request)) = true ∨
    falsy (searchParams_get "workspaceId" (searchParams request)) = true in
  (Upgrade request ≠ Some "websocket" →
     o = {| completion :=
              Returns {| body := TextBody "Expected WebSocket"; status := 426;
                         webSocket := None |};
            registry := m; sent := [] |}) ∧
  (Upgrade request = Some "websocket" → missing →
     o = {| completion :=
              Returns {| body := TextBody "Missing agentId or workspaceId";
                         status := 400; webSocket := None |};
            registry := m; sent := [] |}) ∧
  (Upgrade request ≠ Some "websocket" ∨ missing →
     ∃ r, completion o = Returns r ∧ 400 ≤ status r < 500 ∧
          webSocket r = None ∧ registry o = m ∧ sent o = []).
Proof.
  intros o missing.
  assert (Upgrade request ≠ Some "websocket" →
     o = {| completion :=
              Returns {| body := TextBody "Expected WebSocket"; status := 426;
                         webSocket := None |};
            registry := m; sent := [] |}) as H426.
  { intros Hup. subst o. unfold fetch. by rewrite bool_decide_false. }
  assert (Upgrade request = Some "websocket" → missing →
     o = {| completion :=
              Returns {| body := TextBody "Missing agentId or workspaceId";
                         status := 400; webSocket := None |};
            registry := m; sent := [] |}) as H400.
  { intros Hup Hmiss. subst o missing. unfold fetch.
    rewrite bool_decide_true by done. cbn [negb].
    destruct Hmiss as [-> | ->]; [done|]. by rewrite orb_true_r. }
  split; [done|]. split; [done|].
  intros Hbad.
  destruct (decide (Upgrade request = Some "websocket")) as [Hup|Hup].
  - destruct Hbad as [Hbad|Hmiss]; [done|].
    rewrite (H400 Hup Hmiss). cbn. eexists. repeat split; cbn; lia.
  - rewrite (H426 Hup). cbn. eexists. repeat split; cbn; lia.
Qed.

(** C10.  A frame that is not a text frame, and any frame on a socket the
    registry does not hold, is dropped: the handler returns without a
    single [send] (no [error] frame either) and leaves the registry as it
    was. *)
Theorem foreign_or_binary_frame_is_dropped (m : SessionMap) (ws : WebSocket)
    (message : Message) (now : Z) :
  Map_get ws m = None ∨ (∃ bytes, message = Binary bytes) →
  webSocketMessage ws message now m =
    {| completion := Returns tt; registry := m; sent := [] |}.
Proof.
  intros Hdrop. unfold webSocketMessage, bind at 1, sessions_get.
  cbn [ret completion registry sent].
  destruct (Map_get ws m) as [session|] eqn:Hws; [|done].
  destruct Hdrop as [|[bytes ->]]; done.
Qed.

(** *** The registry keeps distinct keys *)

Lemma Map_wf_filter (P : WebSocket * Session → Prop) `{!∀ e, Decision (P e)} m :
  Map_wf m → Map_wf (filter P m).
Proof.
  unfold Map_wf. induction m as [|[ws s] m IH]; [done|].
  cbn [fmap list_fmap]. rewrite NoDup_cons. intros [Hfresh Hwf].
  rewrite filter_cons. case_decide; [|by apply IH].
  cbn [fmap list_fmap]. apply NoDup_cons. split; [|by apply IH].
  intros Hin. apply Hfresh.
  apply list_elem_of_fmap in Hin as [e [-> Hin]].
  apply list_elem_of_filter in Hin as [_ Hin].
  apply list_elem_of_fmap. by exists e.
Qed.

Lemma notifyClients_wf tenant message now m :
  Map_wf m → Map_wf (registry (notifyClients tenant message now m)).
Proof.
  intros Hwf. unfold notifyClients. rewrite broadcast_run. cbn [registry].
  by apply Map_wf_filter.
Qed.

Lemma webSocketMessage_wf ws message now m :
  Map_wf m → Map_wf (registry (webSocketMessage ws message now m)).
Proof.
  intros Hwf. unfold webSocketMessage, bind at 1, sessions_get.
  cbn [ret completion registry sent].
  destruct (Map_get ws m) as [session|]; [|done].
  unfold try_catch.
  set (body := match message with Text _ => _ | Binary _ => _ end).
  assert (Map_wf (registry (body m))) as Hbody.
  { subst body. destruct message as [text|bytes]; [|done].
    destruct (JSON_parse text) as [[| | | | |fields]|]; try done.
    unfold dispatch.
    destruct (prop_get "type" fields) as [[| | |t| |]|]; try done.
    destruct (String.eqb t "ping"); [by rewrite ws_send_registry|].
    destruct (String.eqb t "subscribe"); [by rewrite ws_send_registry|].
    destruct (String.eqb t "broadcast"); [|done].
    rewrite broadcast_run. cbn [registry]. by apply Map_wf_filter. }
  destruct (completion (body m)); [done|].
  cbn [registry]. unfold console, bind. cbn. by rewrite ws_send_registry.
Qed.

Lemma fetch_wf request pair now m :
  Map_wf m → Map_wf (registry (fetch request pair now m)).
Proof.
  intros Hwf. unfold fetch.
  destruct (negb _); [done|]. destruct (_ || _); [done|].
  destruct pair as [client server].
  unfold bind, sessions_set. cbn [ret completion registry].
  rewrite ws_send_registry.
  destruct (completion (ws_send _ _ _)); cbn [registry];
    rewrite ?ws_send_registry; by apply Map_wf_set.
Qed.

Lemma webSocketClose_wf ws m : Map_wf m → Map_wf (registry (webSocketClose ws m)).
Proof. intros Hwf. cbn. by apply Map_wf_delete. Qed.

(** *** Frames next to the unparseable ones *)

(** X19.  The text [null] parses, and reading [type] off it throws: the sender
    gets the [error] frame as for a text that does not parse. *)
Lemma null_frame_is_answered m ws session text now :
  Map_get ws m = Some session →
  JSON_parse text = Some JNull →
  webSocketMessage ws (Text text) now m =
    {| completion := if send_throws ws (error_frame now)
                     then Throws SendError else Returns tt;
       registry := m;
       sent := [attempt (error_frame now) (ws, session)] |}.
Proof.
  intros Hws Hparse. unfold webSocketMessage, bind at 1, sessions_get.
  cbn [ret completion registry sent]. rewrite Hws, Hparse.
  unfold try_catch, throw, console, bind, ret, ws_send, attempt. cbn.
  by destruct (send_throws ws (error_frame now)).
Qed.

(** X18.  A text that parses to a value without a [type] the switch knows (a
    number, a string, an array, an object of another type) is no error:
    the handler logs it and sends nothing. *)
Lemma unknown_type_is_ignored m ws session text v now :
  Map_get ws m = Some session →
  JSON_parse text = Some v →
  v ≠ JNull →
  (∀ fields, v = JObj fields →
     prop_get "type" fields ∉
       [Some (JStr "ping"); Some (JStr "subscribe"); Some (JStr "broadcast")]) →
  webSocketMessage ws (Text text) now m =
    {| completion := Returns tt; registry := m; sent := [] |}.
Proof.
  intros Hws Hparse Hnull Htype. unfold webSocketMessage, bind at 1, sessions_get.
  cbn [ret completion registry sent]. rewrite Hws, Hparse.
  destruct v as [| | | | |fields]; try done.
  specialize (Htype fields eq_refl). unfold try_catch, dispatch.
  destruct (prop_get "type" fields) as [[| | |t| |]|]; try done.
  destruct (String.eqb_spec t "ping") as [->|_]; [destruct Htype; set_solver|].
  destruct (String.eqb_spec t "subscribe") as [->|_]; [destruct Htype; set_solver|].
  destruct (String.eqb_spec t "broadcast") as [->|_]; [destruct Htype; set_solver|].
  done.
Qed.

(** *** More on the hub *)

Lemma Map_get_set_eq ws s m : Map_get ws (Map_set ws s m) = Some s.
Proof.
  induction m as [|[ws' s'] m IH]; cbn [Map_set Map_get].
  - by rewrite Nat.eqb_refl.
  - destruct (Nat.eqb_spec ws' ws) as [->|Hne]; cbn [Map_get].
    + by rewrite Nat.eqb_refl.
    + by destruct (Nat.eqb_spec ws' ws).
Qed.

Lemma Map_get_set_ne ws ws' s m :
  ws' ≠ ws → Map_get ws' (Map_set ws s m) = Map_get ws' m.
Proof.
  intros Hne. induction m as [|[k v] m IH]; cbn [Map_set Map_get].
  - by destruct (Nat.eqb_spec ws ws') as [->|_].
  - destruct (Nat.eqb_spec k ws) as [->|Hk]; cbn [Map_get].
    + destruct (Nat.eqb_spec ws ws') as [->|_]; done.
    + by rewrite IH.
Qed.

Lemma Map_set_elem_of ws s m e : e ∈ Map_set ws s m → e = (ws, s) ∨ e ∈ m.
Proof.
  induction m as [|[k v] m IH]; cbn [Map_set].
  - intros He. apply list_elem_of_singleton in He. by left.
  - destruct (Nat.eqb_spec k ws) as [->|Hk].
    + rewrite !elem_of_cons. intros [->|He]; [by left|by right; right].
    + rewrite !elem_of_cons. intros [->|He]; [by right; left|].
      destruct (IH He) as [->|Hin]; [by left|by right; right].
Qed.

Lemma Map_get_delete_eq ws m : Map_get ws (Map_delete ws m) = None.
Proof.
  induction m as [|[k v] m IH]; [done|]. cbn [Map_delete].
  destruct (Nat.eqb_spec k ws) as [->|Hk]; [done|].
  cbn [Map_get]. by destruct (Nat.eqb_spec k ws).
Qed.

Lemma Map_get_delete_ne ws ws' m :
  ws' ≠ ws → Map_get ws' (Map_delete ws m) = Map_get ws' m.
Proof.
  intros Hne. induction m as [|[k v] m IH]; [done|]. cbn [Map_delete Map_get].
  destruct (Nat.eqb_spec k ws) as [->|Hk]; cbn [Map_get].
  - by destruct (Nat.eqb_spec ws ws') as [->|_].
  - by rewrite IH.
Qed.

Lemma Map_delete_absent ws m : Map_get ws m = None → Map_delete ws m = m.
Proof.
  induction m as [|[k v] m IH]; [done|]. cbn [Map_delete Map_get].
  destruct (Nat.eqb_spec k ws) as [->|Hk]; [done|]. intros H. by rewrite IH.
Qed.

Lemma Map_delete_length ws m :
  Map_wf m → (length m ≤ S (length (Map_delete ws m)))%nat.
Proof.
  unfold Map_wf. induction m as [|[k v] m IH]; [cbn; lia|].
  cbn [fmap list_fmap]. rewrite NoDup_cons. intros [Hfresh Hwf].
  cbn [Map_delete]. destruct (Nat.eqb_spec k ws) as [->|Hk].
  - rewrite Map_delete_absent; [cbn; lia|].
    destruct (Map_get ws m) as [s|] eqn:Hget; [|done].
    destruct Hfresh. apply Map_get_elem_of in Hget.
    apply list_elem_of_fmap. by exists (ws, s).
  - cbn [length]. specialize (IH Hwf). lia.
Qed.

(** The body of the [try] of [webSocketMessage] never adds a session. *)
Lemma dispatch_sublist ws session fields now m :
  registry (dispatch ws session fields now m) `sublist_of` m.
Proof.
  unfold dispatch.
  destruct (prop_get "type" fields) as [[| | |t| |]|]; try done.
  destruct (String.eqb t "ping"); [by rewrite ws_send_registry|].
  destruct (String.eqb t "subscribe"); [by rewrite ws_send_registry|].
  destruct (String.eqb t "broadcast"); [|done].
  rewrite broadcast_run. cbn [registry]. apply sublist_filter.
Qed.

Lemma webSocketMessage_sublist ws message now m :
  registry (webSocketMessage ws message now m) `sublist_of` m.
Proof.
  unfold webSocketMessage, bind at 1, sessions_get.
  cbn [ret completion registry sent].
  destruct (Map_get ws m) as [session|]; [|done].
  unfold try_catch.
  set (body := match message with Text _ => _ | Binary _ => _ end).
  assert (registry (body m) `sublist_of` m) as Hbody.
  { subst body. destruct message as [text|bytes]; [|done].
    destruct (JSON_parse text) as [[| | | | |fields]|]; try done.
    apply dispatch_sublist. }
  destruct (completion (body m)); [done|].
  cbn [registry]. unfold console, bind. cbn. by rewrite ws_send_registry.
Qed.

Lemma Map_delete_sublist ws m : Map_delete ws m `sublist_of` m.
Proof. rewrite Map_delete_filter. apply sublist_filter. Qed.

Lemma sublist_elem_of_entry (l m : SessionMap) e : l `sublist_of` m → e ∈ l → e ∈ m.
Proof.
  intros Hsub He. by apply (sublist_subseteq _ _ Hsub).
Qed.

Lemma identified_sublist (l m : SessionMap) :
  l `sublist_of` m → identified m → identified l.
Proof. intros Hsub Hm ws s Hin. apply (Hm ws s). by eapply sublist_elem_of_entry. Qed.

(** The sends of a fan-out go to registered sockets. *)
Lemma broadcast_targets message tenant now m ev :
  ev ∈ sent (broadcast message tenant now m) → target ev ∈ m.*1.
Proof.
  rewrite broadcast_run. cbn [sent]. intros Hev.
  apply list_elem_of_fmap in Hev as [e [-> He]].
  apply list_elem_of_filter in He as [_ He]. cbn.
  apply list_elem_of_fmap. by exists e.
Qed.

Lemma recipients_filter (P : WebSocket * Session → Prop) `{!∀ e, Decision (P e)}
    tenant (m : SessionMap) :
  recipients tenant (filter P m) = filter P (recipients tenant m).
Proof.
  unfold recipients. rewrite !list_filter_filter.
  apply list_filter_iff. intros e. split; intros [? ?]; by split.
Qed.

Lemma filter_keys (gone : list WebSocket) (m : SessionMap) :
  (filter (λ e, e.1 ∉ gone) m).*1 = filter (λ k, k ∉ gone) (m.*1).
Proof.
  induction m as [|[k v] m IH]; [done|].
  cbn [fmap list_fmap]. rewrite !filter_cons. cbn [fst].
  destruct (decide (k ∉ gone)); cbn [fmap list_fmap]; by rewrite <- IH.
Qed.

(** X1.  An upgrade request that carries a non-empty [agentId] and
    [workspaceId] is registered under the server end of the pair with
    exactly these identifiers, before the welcome is sent; the other
    sessions stay as they were.  One frame goes to the new socket and to
    no other: a [connected] message whose payload carries the greeting and
    the two identifiers, stamped by the hub.  The answer is 101 with the
    client end; when the welcome cannot be sent, [fetch] throws and the
    session stays registered all the same. *)
Theorem fetch_registers_session (m : SessionMap) (request : Request)
    (client server : WebSocket) (agent tenant : string) (now : Z) :
  Upgrade request = Some "websocket" →
  searchParams_get "agentId" (searchParams request) = Some agent →
  searchParams_get "workspaceId" (searchParams request) = Some tenant →
  agent ≠ EmptyString → tenant ≠ EmptyString →
  let o := fetch request (client, server) now m in
  let session := {| agentId := agent; workspaceId := tenant |} in
  let welcome := connected_frame agent tenant now in
  registry o = Map_set server session m ∧
  Map_get server (registry o) = Some session ∧
  (∀ ws, ws ≠ server → Map_get ws (registry o) = Map_get ws m) ∧
  sent o = [attempt welcome (server, session)] ∧
  completion o =
    (if send_throws server welcome then Throws SendError
     else Returns {| body := NoBody; status := 101; webSocket := Some client |}) ∧
  (∃ frame payload,
     welcome = JObj frame ∧
     prop_get "type" frame = Some (JStr "connected") ∧
     prop_get "payload" frame = Some (JObj payload) ∧
     prop_get "timestamp" frame = Some (JNum now) ∧
     length frame = 3%nat ∧
     prop_get "message" payload
       = Some (JStr "Connected to Enque real-time server") ∧
     prop_get "workspaceId" payload = Some (JStr tenant) ∧
     prop_get "agentId" payload = Some (JStr agent) ∧
     length payload = 3%nat).
Proof.
  intros Hup Hagent Htenant Ha Ht o session welcome.
  assert (o = {| completion :=
                   if send_throws server welcome then Throws SendError
                   else Returns {| body := NoBody; status := 101;
                                   webSocket := Some client |};
                 registry := Map_set server session m;
                 sent := [attempt welcome (server, session)] |}) as ->.
  { subst o session welcome. unfold fetch.
    rewrite bool_decide_true by done. rewrite Hagent, Htenant. cbn [negb].
    destruct agent as [|a agent]; [done|]. destruct tenant as [|t tenant]; [done|].
    cbn [falsy orb default].
    unfold bind, sessions_set, ws_send, attempt, ret. cbn.
    by destruct (send_throws server _). }
  cbn [registry sent completion].
  split; [done|]. split; [apply Map_get_set_eq|].
  split; [intros ws Hne; by apply Map_get_set_ne|].
  split; [done|]. split; [done|].
  subst welcome. unfold connected_frame. by eexists _, _.
Qed.

(** A reply inside the [try] of [webSocketMessage]: one [send], and the
    [error] frame after it when that [send] throws. *)
Lemma reply_run ws session d now m :
  try_catch (ws_send ws d) (fun _ => console ;;; ws_send ws (error_frame now)) m =
    {| completion :=
         if send_throws ws d && send_throws ws (error_frame now)
         then Throws SendError else Returns tt;
       registry := m;
       sent := attempt d (ws, session) ::
               if send_throws ws d then [attempt (error_frame now) (ws, session)]
               else [] |}.
Proof.
  unfold try_catch, console, bind, ret, ws_send, attempt. cbn [fst].
  destruct (send_throws ws d); cbn; [|done].
  by destruct (send_throws ws (error_frame now)).
Qed.

(** X2.  A [ping] from a registered session is answered with one frame
    to the sender, a [pong] message with the hub's timestamp and nothing
    else; no other session is sent anything and the registry stays as it
    was.  When that [send] throws, the handler tries an [error] message,
    with the payload [Failed to process message], on the same socket. *)
Theorem ping_is_answered_to_sender (m : SessionMap) (ws : WebSocket)
    (session : Session) (text : string) (fields : object) (now : Z) :
  Map_get ws m = Some session →
  JSON_parse text = Some (JObj fields) →
  prop_get "type" fields = Some (JStr "ping") →
  let o := webSocketMessage ws (Text text) now m in
  registry o = m ∧
  (∀ ev, ev ∈ sent o → target ev = ws) ∧
  (send_throws ws (pong_frame now) = false →
     completion o = Returns tt ∧
     sent o = [{| target := ws; data := pong_frame now; delivered := true |}]) ∧
  (send_throws ws (pong_frame now) = true →
     sent o = [{| target := ws; data := pong_frame now; delivered := false |};
               attempt (error_frame now) (ws, session)]) ∧
  (∃ reply,
     pong_frame now = JObj reply ∧
     prop_get "type" reply = Some (JStr "pong") ∧
     prop_get "timestamp" reply = Some (JNum now) ∧
     length reply = 2%nat) ∧
  (∃ frame,
     error_frame now = JObj frame ∧
     prop_get "type" frame = Some (JStr "error") ∧
     prop_get "payload" frame
       = Some (JObj [("message", JStr "Failed to process message")]) ∧
     prop_get "timestamp" frame = Some (JNum now) ∧
     length frame = 3%nat).
Proof.
  intros Hws Hparse Htype o.
  assert (o = try_catch (ws_send ws (pong_frame now))
                (fun _ => console ;;; ws_send ws (error_frame now)) m) as ->.
  { subst o. unfold webSocketMessage, bind at 1, sessions_get.
    cbn [ret completion registry sent]. rewrite Hws, Hparse.
    unfold dispatch. rewrite Htype. cbn [String.eqb Ascii.eqb Bool.eqb].
    by destruct (try_catch _ _ m). }
  rewrite (reply_run ws session). cbn [completion registry sent app].
  split; [done|]. split; [|split; [|split; [|split]]].
  - intros ev Hev. apply elem_of_cons in Hev as [->|Hev]; [done|].
    destruct (send_throws ws (pong_frame now)); [|by apply elem_of_nil in Hev].
    by apply list_elem_of_singleton in Hev as ->.
  - intros Hok. unfold attempt. cbn [fst]. by rewrite Hok.
  - intros Hthrows. unfold attempt at 1. cbn [fst]. by rewrite Hthrows.
  - by eexists.
  - by eexists.
Qed.

(** X3.  A [subscribe] from a registered session is acknowledged to the
    sender alone with a [subscribed] frame that carries the submitted
    payload as it came (none when none came) and the hub's timestamp; the
    registry stays as it was. *)
Theorem subscribe_echoes_payload (m : SessionMap) (ws : WebSocket)
    (session : Session) (text : string) (fields : object) (now : Z) :
  Map_get ws m = Some session →
  JSON_parse text = Some (JObj fields) →
  prop_get "type" fields = Some (JStr "subscribe") →
  let o := webSocketMessage ws (Text text) now m in
  let reply := subscribed_frame (prop_get "payload" fields) now in
  registry o = m ∧
  (∀ ev, ev ∈ sent o → target ev = ws) ∧
  head (sent o) = Some (attempt reply (ws, session)) ∧
  (send_throws ws reply = false →
     completion o = Returns tt ∧ sent o = [attempt reply (ws, session)]) ∧
  (∃ reply_fields,
     reply = JObj reply_fields ∧
     prop_get "type" reply_fields = Some (JStr "subscribed") ∧
     prop_get "payload" reply_fields = prop_get "payload" fields ∧
     prop_get "timestamp" reply_fields = Some (JNum now)).
Proof.
  intros Hws Hparse Htype o reply.
  assert (o = try_catch (ws_send ws reply)
                (fun _ => console ;;; ws_send ws (error_frame now)) m) as ->.
  { subst o. unfold webSocketMessage, bind at 1, sessions_get.
    cbn [ret completion registry sent]. rewrite Hws, Hparse.
    unfold dispatch. rewrite Htype. cbn [String.eqb Ascii.eqb Bool.eqb].
    fold reply. by destruct (try_catch _ _ m). }
  rewrite (reply_run ws session). cbn [completion registry sent app].
  split; [done|]. split; [|split; [done|split]].
  - intros ev Hev. apply elem_of_cons in Hev as [->|Hev]; [done|].
    destruct (send_throws ws reply); [|by apply elem_of_nil in Hev].
    by apply list_elem_of_singleton in Hev as ->.
  - intros Hok. by rewrite Hok.
  - subst reply. unfold subscribed_frame, optional_prop. eexists. split; [done|].
    by destruct (prop_get "payload" fields).
Qed.

(** X4.  Closing a session deletes it and nothing else: its socket is no
    longer registered, every other session is, no frame is sent, and in a
    [Map] the size goes down by one at most.  Closing again, or closing a
    socket that is not registered, changes nothing; the error callback
    does what the close callback does. *)
Theorem close_is_idempotent (m : SessionMap) (ws : WebSocket) :
  let o := webSocketClose ws m in
  completion o = Returns tt ∧ sent o = [] ∧
  Map_get ws (registry o) = None ∧
  (∀ ws', ws' ≠ ws → Map_get ws' (registry o) = Map_get ws' m) ∧
  webSocketClose ws (registry o) = o ∧
  webSocketError ws m = o ∧
  (Map_get ws m = None → registry o = m) ∧
  (Map_wf m → (length m - 1 ≤ length (registry o) ≤ length m)%nat).
Proof.
  cbn. split; [done|]. split; [done|].
  split; [apply Map_get_delete_eq|].
  split; [intros ws' Hne; by apply Map_get_delete_ne|].
  split.
  { unfold webSocketClose, bind, sessions_delete, console, ret. cbn.
    by rewrite (Map_delete_absent ws (Map_delete ws m)) by apply Map_get_delete_eq. }
  split; [done|]. split; [apply Map_delete_absent|].
  intros Hwf. pose proof (Map_delete_length ws m Hwf).
  pose proof (sublist_length _ _ (Map_delete_sublist ws m)). lia.
Qed.

(** X5.  Once a session is closed, the hub sends it nothing more: no
    notification and no frame of another session reaches its socket, and
    a frame that still arrives on it is dropped. *)
Theorem closed_session_gets_nothing (m : SessionMap) (ws : WebSocket) :
  let m' := registry (webSocketClose ws m) in
  (∀ tenant message now ev,
     ev ∈ sent (notifyClients tenant message now m') → target ev ≠ ws) ∧
  (∀ ws' message now ev,
     ev ∈ sent (webSocketMessage ws' message now m') → target ev ≠ ws) ∧
  (∀ message now,
     webSocketMessage ws message now m' =
       {| completion := Returns tt; registry := m'; sent := [] |}).
Proof.
  cbv zeta. change (registry (webSocketClose ws m)) with (Map_delete ws m).
  assert (ws ∉ (Map_delete ws m).*1) as Hgone.
  { intros Hin. apply list_elem_of_fmap in Hin as [[k v] [-> Hin]].
    rewrite Map_delete_filter in Hin. apply list_elem_of_filter in Hin as [Hne _].
    by apply Hne. }
  split; [|split].
  - intros tenant message now ev Hev Heq. apply Hgone. rewrite <- Heq at 1.
    exact (broadcast_targets message tenant now _ ev Hev).
  - intros ws' message now ev. unfold webSocketMessage, bind at 1, sessions_get.
    cbn [ret completion registry sent].
    destruct (Map_get ws' (Map_delete ws m)) as [session|] eqn:Hws';
      [|by intros Hev; apply elem_of_nil in Hev].
    assert (ws' ≠ ws) as Hne.
    { intros ->. by rewrite Map_get_delete_eq in Hws'. }
    cbn [app]. unfold try_catch.
    set (body := match message with Text _ => _ | Binary _ => _ end).
    assert (∀ ev, ev ∈ sent (body (Map_delete ws m)) → target ev ≠ ws) as Hbody.
    { subst body. destruct message as [text|bytes];
        [|by intros ? Hev; apply elem_of_nil in Hev].
      destruct (JSON_parse text) as [[| | | | |fields]|];
        try (by intros ? Hev; apply elem_of_nil in Hev).
      unfold dispatch.
      destruct (prop_get "type" fields) as [[| | |t| |]|];
        try (by intros ? Hev; apply elem_of_nil in Hev).
      destruct (String.eqb t "ping").
      { unfold ws_send. destruct (send_throws _ _); cbn;
          intros ? Hev; by apply list_elem_of_singleton in Hev as ->. }
      destruct (String.eqb t "subscribe").
      { unfold ws_send. destruct (send_throws _ _); cbn;
          intros ? Hev; by apply list_elem_of_singleton in Hev as ->. }
      destruct (String.eqb t "broadcast");
        [|by intros ? Hev; apply elem_of_nil in Hev].
      intros ev' Hev' Heq. apply Hgone. rewrite <- Heq at 1.
      exact (broadcast_targets fields (workspaceId session) now _ ev' Hev'). }
    destruct (completion (body (Map_delete ws m))); [by apply Hbody|].
    cbn [sent]. intros Hev. apply elem_of_app in Hev as [Hev|Hev]; [by apply Hbody|].
    unfold console, bind, ret, ws_send in Hev. cbn in Hev.
    destruct (send_throws _ _); cbn in Hev;
      by apply list_elem_of_singleton in Hev as ->.
  - intros message now. unfold webSocketMessage, bind at 1, sessions_get.
    cbn [ret completion registry sent]. by rewrite Map_get_delete_eq.
Qed.

(** X6.  A dead peer is found by the fan-out that fails on it and is not
    tried again: the next fan-out to the workspace, on the registry the
    first one left, calls [send] on the sockets of the first one that did
    not throw, in the same order. *)
Theorem dead_peers_are_not_retried (m : SessionMap) (tenant : string)
    (message message' : object) (now now' : Z) :
  let o := broadcast message tenant now m in
  let o' := broadcast message' tenant now' (registry o) in
  target <$> sent o' =
    filter (λ ws, ws ∉ unreachable (stamped message now) tenant m)
           (target <$> sent o) ∧
  ∀ ev, ev ∈ sent o' → send_throws (target ev) (stamped message now) = false.
Proof.
  intros o o'. subst o' o. rewrite !broadcast_run. cbn [registry sent].
  set (gone := unreachable (stamped message now) tenant m).
  assert (∀ d (l : SessionMap), target <$> (attempt d <$> l) = l.*1) as Htargets.
  { intros d l. rewrite <- list_fmap_compose. by apply list_fmap_ext. }
  split.
  - rewrite !Htargets.
    rewrite (recipients_filter (λ e, e.1 ∉ gone)).
    apply filter_keys.
  - intros ev Hev. apply list_elem_of_fmap in Hev as [[ws s] [-> Hin]]. cbn.
    rewrite (recipients_filter (λ e, e.1 ∉ gone)) in Hin.
    apply list_elem_of_filter in Hin as [Hout Hin]. cbn in Hout.
    destruct (send_throws ws (stamped message now)) eqn:Hsend; [|done].
    destruct Hout. subst gone. unfold unreachable.
    apply list_elem_of_fmap. exists (ws, s). split; [done|].
    apply list_elem_of_filter. by split.
Qed.

(** X7.  A notification for a workspace without a registered session
    succeeds and does nothing: no [send], the registry as it was. *)
Theorem notify_without_sessions_is_noop (m : SessionMap) (tenant : string)
    (message : object) (now : Z) :
  (∀ ws s, (ws, s) ∈ m → workspaceId s ≠ tenant) →
  notifyClients tenant message now m =
    {| completion := Returns tt; registry := m; sent := [] |}.
Proof.
  intros Hnone. unfold notifyClients. rewrite broadcast_run.
  assert (recipients tenant m = []) as Hrec.
  { unfold recipients. induction m as [|[ws s] m IH]; [done|].
    rewrite filter_cons_False.
    - apply IH. intros ws' s' Hin. apply (Hnone ws' s'). by right.
    - cbn. apply (Hnone ws s). by left. }
  unfold unreachable. rewrite Hrec. f_equal.
  apply filter_all. intros e He. by apply elem_of_nil in He.
Qed.

(** X8.  A fan-out to one workspace leaves the sessions of every other
    workspace registered, whatever happens to its own sends. *)
Theorem fanout_spares_other_tenants (m : SessionMap) (tenant : string)
    (message : object) (now : Z) (ws : WebSocket) (s : Session) :
  Map_wf m → (ws, s) ∈ m → workspaceId s ≠ tenant →
  Map_get ws (registry (notifyClients tenant message now m)) = Some s.
Proof.
  intros Hwf Hin Hne. unfold notifyClients. rewrite broadcast_run. cbn [registry].
  rewrite Map_get_without, decide_False; [by apply Map_get_wf|].
  unfold unreachable, recipients. intros Hdead.
  apply list_elem_of_fmap in Hdead as [[k v] [Hk Hdead]]. cbn in Hk. subst k.
  apply list_elem_of_filter in Hdead as [_ Hdead].
  apply list_elem_of_filter in Hdead as [Ht Hdead]. cbn in Ht.
  assert (Map_get ws m = Some v) as Hv by by apply Map_get_wf.
  rewrite (Map_get_wf ws s m Hwf Hin) in Hv. congruence.
Qed.

(** X9.  An inbound frame never registers a session and removes one only
    by way of a broadcast: the registry it leaves is the old one with
    entries taken out, and the old one itself unless the frame is a
    [broadcast] message. *)
Theorem inbound_frame_never_registers (m : SessionMap) (ws : WebSocket)
    (message : Message) (now : Z) :
  let o := webSocketMessage ws message now m in
  registry o `sublist_of` m ∧
  (¬ is_broadcast message → registry o = m).
Proof.
  split; [apply webSocketMessage_sublist|].
  intros Hnot. unfold webSocketMessage, bind at 1, sessions_get.
  cbn [ret completion registry sent].
  destruct (Map_get ws m) as [session|]; [|done].
  unfold try_catch.
  set (body := match message with Text _ => _ | Binary _ => _ end).
  assert (registry (body m) = m) as Hbody.
  { subst body. destruct message as [text|bytes]; [|done].
    destruct (JSON_parse text) as [[| | | | |fields]|] eqn:Hparse; try done.
    unfold dispatch.
    destruct (prop_get "type" fields) as [[| | |t| |]|] eqn:Htype; try done.
    destruct (String.eqb t "ping"); [by rewrite ws_send_registry|].
    destruct (String.eqb t "subscribe"); [by rewrite ws_send_registry|].
    destruct (String.eqb_spec t "broadcast") as [->|_]; [|done].
    destruct Hnot. by exists text, fields. }
  destruct (completion (body m)); [done|].
  cbn [registry]. unfold console, bind. cbn. by rewrite ws_send_registry.
Qed.

(** X10.  In every state the hub can reach from its constructor, the
    registry holds each socket once, and every registered session has a
    non-empty [agentId] and a non-empty [workspaceId]: [fetch] is the only
    handler that registers, and it refuses empty identifiers. *)
Theorem reachable_registry_is_identified (events : list Event) :
  Map_wf (run_events events) ∧ identified (run_events events).
Proof.
  unfold run_events.
  assert (Map_wf [] ∧ identified []) as Hinit.
  { split; [apply NoDup_nil_2|]. intros ws s Hin. by apply elem_of_nil in Hin. }
  revert Hinit. generalize ([] : SessionMap).
  induction events as [|e events IH]; intros m [Hwf Hid]; [done|].
  cbn [foldl]. apply IH. destruct e as [request sockets now| | | |]; cbn [handle].
  - split; [by apply fetch_wf|]. unfold fetch.
    destruct (negb _); [done|].
    destruct (searchParams_get "agentId" _) as [agent|]; [|done].
    destruct (searchParams_get "workspaceId" _) as [tenant|];
      [|by rewrite orb_true_r].
    destruct agent as [|a agent]; [done|]. destruct tenant as [|t tenant]; [done|].
    cbn [falsy orb default]. destruct sockets as [client server].
    unfold bind, sessions_set. cbn [ret completion registry].
    assert (identified (Map_set server
              {| agentId := String a agent; workspaceId := String t tenant |} m))
      as Hset.
    { intros ws s Hin. apply Map_set_elem_of in Hin as [[= -> ->]|Hin];
        [done|by apply (Hid ws s)]. }
    destruct (completion (ws_send _ _ _)); cbn [registry];
      by rewrite ?ws_send_registry.
  - split; [by apply webSocketMessage_wf|].
    eapply identified_sublist; [apply webSocketMessage_sublist|done].
  - split; [by apply notifyClients_wf|].
    eapply identified_sublist; [|done].
    unfold notifyClients. rewrite broadcast_run. apply sublist_filter.
  - split; [by apply webSocketClose_wf|].
    eapply identified_sublist; [apply Map_delete_sublist|done].
  - split; [by apply (webSocketClose_wf ws)|].
    eapply identified_sublist; [apply Map_delete_sublist|done].
Qed.

(** X11.  The frame of a fan-out carries the hub's timestamp, in the place
    of one the sender gave, and every other property of the message as it
    was. *)
Theorem stamped_timestamp_is_assigned (message : object) (now : Z) :
  ∃ fields,
    stamped message now = JObj fields ∧
    prop_get "timestamp" fields = Some (JNum now) ∧
    (∀ k, k ≠ "timestamp" → prop_get k fields = prop_get k message) ∧
    (length message ≤ length fields ≤ S (length message))%nat.
Proof.
  unfold stamped. eexists. split; [done|].
  split; [apply prop_get_set_eq|]. split; [|apply prop_set_length].
  intros k Hk. by apply prop_get_set_ne.
Qed.

End Hub.

(** *** The claims at the scenario *)

(** The registry of the scenario is a [Map]. *)
Lemma scenario_registry_wf : Map_wf scenario_registry.
Proof. unfold Map_wf. apply (bool_decide_unpack _). by vm_compute. Defined.

(** C1 at the scenario: a notification for W1 and a broadcast of agent A1
    stay in W1. *)
Lemma delivery_stays_in_tenant_witness :
  Map_wf scenario_registry ∧
  within "W1" scenario_registry
    (sent (notifyClients scenario_send_throws "W1" ticket_updated 1000
             scenario_registry)) ∧
  within "W1" scenario_registry
    (sent (webSocketMessage scenario_parse scenario_send_throws 1%nat
             (Text broadcast_text) 1000 scenario_registry)).
Proof.
  split; [exact scenario_registry_wf|].
  pose proof (delivery_stays_in_tenant scenario_parse scenario_send_throws
                scenario_registry scenario_registry_wf) as [Hnotify Hinbound].
  split.
  - apply (Hnotify "W1" ticket_updated 1000).
  - apply (Hinbound 1%nat {| agentId := "A1"; workspaceId := "W1" |}
             (Text broadcast_text) 1000 eq_refl).
Defined.

(** C2 at the scenario: the broadcast of agent A1 names W2 in its frame and
    is sent, stamped, to the sockets of W1, 1 and 2 (whose peer is gone). *)
Lemma inbound_broadcast_reaches_tenant_witness :
  Map_get 1%nat scenario_registry = Some {| agentId := "A1"; workspaceId := "W1" |} ∧
  scenario_parse broadcast_text = Some (JObj broadcast_fields) ∧
  sent (webSocketMessage scenario_parse scenario_send_throws 1%nat
          (Text broadcast_text) 1000 scenario_registry)
  = [{| target := 1%nat;
        data := JObj [("type", JStr "broadcast"); ("workspaceId", JStr "W2");
                      ("timestamp", JNum 1000)];
        delivered := true |};
     {| target := 2%nat;
        data := JObj [("type", JStr "broadcast"); ("workspaceId", JStr "W2");
                      ("timestamp", JNum 1000)];
        delivered := false |}].
Proof.
  split; [reflexivity|]. split; [reflexivity|].
  pose proof (inbound_broadcast_reaches_tenant scenario_parse scenario_send_throws
                scenario_registry 1%nat {| agentId := "A1"; workspaceId := "W1" |}
                broadcast_text broadcast_fields 1000 eq_refl eq_refl eq_refl)
    as (_ & Hsent & _).
  rewrite Hsent. reflexivity.
Defined.

(** C7 at the scenario: socket 2 throws and is evicted, socket 1 stays. *)
Lemma fanout_failure_is_local_witness :
  Map_get 2%nat
    (registry (broadcast scenario_send_throws ticket_updated "W1" 1000
                 scenario_registry)) = None ∧
  Map_get 1%nat
    (registry (broadcast scenario_send_throws ticket_updated "W1" 1000
                 scenario_registry)) = Some {| agentId := "A1"; workspaceId := "W1" |}.
Proof.
  pose proof (fanout_failure_is_local scenario_send_throws scenario_registry
                ticket_updated "W1" 1000) as (_ & _ & Hgone & Hkept & _).
  split.
  - apply (Hgone 2%nat {| agentId := "A2"; workspaceId := "W1" |});
      [|reflexivity|reflexivity].
    apply (bool_decide_unpack _). by vm_compute.
  - rewrite (Hkept 1%nat); [reflexivity|].
    apply (bool_decide_unpack _). by vm_compute.
Defined.

(** C8 at the scenario: a text that is no JSON, from socket 1. *)
Lemma unparseable_frame_is_answered_witness :
  Map_get 1%nat scenario_registry = Some {| agentId := "A1"; workspaceId := "W1" |} ∧
  scenario_parse "not json" = None ∧
  sent (webSocketMessage scenario_parse scenario_send_throws 1%nat
          (Text "not json") 1000 scenario_registry)
  = [{| target := 1%nat;
        data := JObj [("type", JStr "error");
                      ("payload",
                        JObj [("message", JStr "Failed to process message")]);
                      ("timestamp", JNum 1000)];
        delivered := true |}] ∧
  registry (webSocketMessage scenario_parse scenario_send_throws 1%nat
              (Text "not json") 1000 scenario_registry)
  = scenario_registry.
Proof.
  split; [reflexivity|]. split; [reflexivity|].
  pose proof (unparseable_frame_is_answered scenario_parse scenario_send_throws
                scenario_registry 1%nat {| agentId := "A1"; workspaceId := "W1" |}
                "not json" 1000 eq_refl eq_refl)
    as (_ & _ & Hregistry & _ & Hsent & _).
  split; [exact (proj2 (Hsent eq_refl))|exact Hregistry].
Defined.

(** C9 at the scenario: a plain request, and an upgrade with an empty
    [workspaceId]. *)
Lemma fetch_refuses_bad_requests_witness :
  fetch scenario_send_throws plain_request (8%nat, 9%nat) 1000 scenario_registry =
    {| completion :=
         Returns {| body := TextBody "Expected WebSocket"; status := 426;
                    webSocket := None |};
       registry := scenario_registry; sent := [] |} ∧
  fetch scenario_send_throws anonymous_upgrade (8%nat, 9%nat) 1000 scenario_registry =
    {| completion :=
         Returns {| body := TextBody "Missing agentId or workspaceId"; status := 400;
                    webSocket := None |};
       registry := scenario_registry; sent := [] |}.
Proof.
  pose proof (fetch_refuses_bad_requests scenario_send_throws scenario_registry
                plain_request (8%nat, 9%nat) 1000) as (H426 & _ & _).
  pose proof (fetch_refuses_bad_requests scenario_send_throws scenario_registry
                anonymous_upgrade (8%nat, 9%nat) 1000) as (_ & H400 & _).
  split.
  - apply H426. discriminate.
  - apply H400; [reflexivity|]. right. reflexivity.
Defined.

(** C10 at the scenario: a frame on socket 9, which is not registered, and
    a binary frame on socket 1. *)
Lemma foreign_or_binary_frame_is_dropped_witness :
  webSocketMessage scenario_parse scenario_send_throws 9%nat (Text "null") 1000
    scenario_registry =
    {| completion := Returns tt; registry := scenario_registry; sent := [] |} ∧
  webSocketMessage scenario_parse scenario_send_throws 1%nat (Binary [Byte.x00]) 1000
    scenario_registry =
    {| completion := Returns tt; registry := scenario_registry; sent := [] |}.
Proof.
  split; apply foreign_or_binary_frame_is_dropped.
  - left. reflexivity.
  - right. by eexists.
Defined.



(** *** More on the hub, at the scenario *)

(** X1 at the scenario: agent A4 of W1 connects on the pair (8, 9). *)
Lemma fetch_registers_session_witness :
  Map_get 9%nat
    (registry (fetch scenario_send_throws upgrade_request (8%nat, 9%nat) 1000
                 scenario_registry))
    = Some {| agentId := "A4"; workspaceId := "W1" |} ∧
  completion (fetch scenario_send_throws upgrade_request (8%nat, 9%nat) 1000
                scenario_registry)
    = Returns {| body := NoBody; status := 101; webSocket := Some 8%nat |} ∧
  sent (fetch scenario_send_throws upgrade_request (8%nat, 9%nat) 1000
          scenario_registry)
    = [{| target := 9%nat;
          data := JObj [("type", JStr "connected");
                        ("payload",
                          JObj [("message",
                                  JStr "Connected to Enque real-time server");
                                ("workspaceId", JStr "W1");
                                ("agentId", JStr "A4")]);
                        ("timestamp", JNum 1000)];
          delivered := true |}].
Proof.
  destruct (fetch_registers_session scenario_send_throws scenario_registry
              upgrade_request 8%nat 9%nat "A4" "W1" 1000 eq_refl eq_refl eq_refl)
    as (_ & Hget & _ & Hsent & Hdone & _); [discriminate|discriminate|].
  split; [exact Hget|]. split; [exact Hdone|exact Hsent].
Defined.

(** X2 at the scenario: a ping of socket 1, and one of socket 2, whose
    peer is gone. *)
Lemma ping_is_answered_to_sender_witness :
  sent (webSocketMessage control_parse scenario_send_throws 1%nat (Text ping_text)
          1000 scenario_registry)
    = [{| target := 1%nat;
          data := JObj [("type", JStr "pong"); ("timestamp", JNum 1000)];
          delivered := true |}] ∧
  sent (webSocketMessage control_parse scenario_send_throws 2%nat (Text ping_text)
          1000 scenario_registry)
    = [{| target := 2%nat;
          data := JObj [("type", JStr "pong"); ("timestamp", JNum 1000)];
          delivered := false |};
       {| target := 2%nat;
          data := JObj [("type", JStr "error");
                        ("payload",
                          JObj [("message", JStr "Failed to process message")]);
                        ("timestamp", JNum 1000)];
          delivered := false |}].
Proof.
  split.
  - destruct (ping_is_answered_to_sender control_parse scenario_send_throws
                scenario_registry 1%nat {| agentId := "A1"; workspaceId := "W1" |}
                ping_text [("type", JStr "ping")] 1000 eq_refl eq_refl eq_refl)
      as (_ & _ & Hok & _).
    exact (proj2 (Hok eq_refl)).
  - destruct (ping_is_answered_to_sender control_parse scenario_send_throws
                scenario_registry 2%nat {| agentId := "A2"; workspaceId := "W1" |}
                ping_text [("type", JStr "ping")] 1000 eq_refl eq_refl eq_refl)
      as (_ & _ & _ & Hthrows & _).
    exact (Hthrows eq_refl).
Defined.

(** X3 at the scenario: socket 1 subscribes to [tickets]. *)
Lemma subscribe_echoes_payload_witness :
  sent (webSocketMessage control_parse scenario_send_throws 1%nat
          (Text subscribe_text) 1000 scenario_registry)
    = [{| target := 1%nat;
          data := JObj [("type", JStr "subscribed"); ("payload", JStr "tickets");
                        ("timestamp", JNum 1000)];
          delivered := true |}].
Proof.
  destruct (subscribe_echoes_payload control_parse scenario_send_throws
              scenario_registry 1%nat {| agentId := "A1"; workspaceId := "W1" |}
              subscribe_text subscribe_fields 1000 eq_refl eq_refl eq_refl)
    as (_ & _ & _ & Hok & _).
  exact (proj2 (Hok eq_refl)).
Defined.

(** X4 at the scenario: socket 2 closes. *)
Lemma close_is_idempotent_witness :
  Map_wf scenario_registry ∧
  (length scenario_registry - 1
     ≤ length (registry (webSocketClose 2%nat scenario_registry))
     ≤ length scenario_registry)%nat.
Proof.
  split; [exact scenario_registry_wf|].
  destruct (close_is_idempotent scenario_registry 2%nat)
    as (_ & _ & _ & _ & _ & _ & _ & Hsize).
  exact (Hsize scenario_registry_wf).
Defined.

(** X5 at the scenario: a frame on socket 2 after it closed. *)
Lemma closed_session_gets_nothing_witness :
  webSocketMessage control_parse scenario_send_throws 2%nat (Text ping_text) 1000
    (registry (webSocketClose 2%nat scenario_registry))
  = {| completion := Returns tt;
       registry := registry (webSocketClose 2%nat scenario_registry);
       sent := [] |}.
Proof.
  destruct (closed_session_gets_nothing control_parse scenario_send_throws
              scenario_registry 2%nat) as (_ & _ & Hdrop).
  exact (Hdrop (Text ping_text) 1000).
Defined.

(** X6 at the scenario: the second notification for W1 goes to socket 1
    alone. *)
Lemma dead_peers_are_not_retried_witness :
  target <$> sent (broadcast scenario_send_throws ticket_updated "W1" 2000
                     (registry (broadcast scenario_send_throws ticket_updated "W1"
                                  1000 scenario_registry)))
    = [1%nat].
Proof.
  destruct (dead_peers_are_not_retried scenario_send_throws scenario_registry "W1"
              ticket_updated ticket_updated 1000 2000) as [Htargets _].
  exact Htargets.
Defined.

(** X7 at the scenario: nobody of W9 is connected. *)
Lemma notify_without_sessions_is_noop_witness :
  notifyClients scenario_send_throws "W9" ticket_updated 1000 scenario_registry
    = {| completion := Returns tt; registry := scenario_registry; sent := [] |}.
Proof.
  apply notify_without_sessions_is_noop. intros ws s Hin.
  apply elem_of_cons in Hin as [Hin|Hin]; [by inversion Hin|].
  apply elem_of_cons in Hin as [Hin|Hin]; [by inversion Hin|].
  apply elem_of_cons in Hin as [Hin|Hin]; [by inversion Hin|].
  by apply elem_of_nil in Hin.
Defined.

(** X8 at the scenario: the session of W2 outlives a notification for W1. *)
Lemma fanout_spares_other_tenants_witness :
  Map_get 3%nat
    (registry (notifyClients scenario_send_throws "W1" ticket_updated 1000
                 scenario_registry))
    = Some {| agentId := "A3"; workspaceId := "W2" |}.
Proof.
  apply fanout_spares_other_tenants.
  - exact scenario_registry_wf.
  - apply (bool_decide_unpack _). by vm_compute.
  - discriminate.
Defined.

(** X9 at the scenario: a binary frame of socket 1. *)
Lemma inbound_frame_never_registers_witness :
  registry (webSocketMessage control_parse scenario_send_throws 1%nat
              (Binary [Byte.x00]) 1000 scenario_registry)
    = scenario_registry.
Proof.
  destruct (inbound_frame_never_registers control_parse scenario_send_throws
              scenario_registry 1%nat (Binary [Byte.x00]) 1000) as [_ Hsame].
  apply Hsame. intros (text & fields & Heq & _). discriminate.
Defined.

(** X11 at a message that brings a timestamp of its own. *)
Lemma stamped_timestamp_is_assigned_witness :
  ∃ fields,
    stamped [("type", JStr "broadcast"); ("timestamp", JNum 5)] 1000 = JObj fields ∧
    prop_get "timestamp" fields = Some (JNum 1000) ∧
    prop_get "type" fields = Some (JStr "broadcast").
Proof.
  destruct (stamped_timestamp_is_assigned
              [("type", JStr "broadcast"); ("timestamp", JNum 5)] 1000)
    as (fields & Heq & Hts & Hother & _).
  exists fields. split; [exact Heq|]. split; [exact Hts|].
  rewrite Hother; [reflexivity|discriminate].
Defined.

(** X18 at the scenario: the text [42] from socket 1. *)
Lemma unknown_type_is_ignored_witness :
  webSocketMessage scenario_parse scenario_send_throws 1%nat (Text "42") 1000
    scenario_registry
  = {| completion := Returns tt; registry := scenario_registry; sent := [] |}.
Proof.
  apply (unknown_type_is_ignored scenario_parse scenario_send_throws
           scenario_registry 1%nat {| agentId := "A1"; workspaceId := "W1" |}
           "42" (JNum 42) 1000 eq_refl eq_refl).
  - discriminate.
  - intros fields Heq. discriminate.
Defined.

(** X19 at the scenario: the text [null] from socket 1. *)
Lemma null_frame_is_answered_witness :
  sent (webSocketMessage scenario_parse scenario_send_throws 1%nat (Text "null") 1000
          scenario_registry)
  = [{| target := 1%nat; data := error_frame 1000; delivered := true |}].
Proof.
  rewrite (null_frame_is_answered scenario_parse scenario_send_throws
             scenario_registry 1%nat {| agentId := "A1"; workspaceId := "W1" |}
             "null" 1000 eq_refl eq_refl).
  reflexivity.
Defined.

End Realtime.

(** ** The rate limiter: what the middleware does *)

Module RateLimitFacts.
Import Js RateLimit.

(** *** Arithmetic and the store *)

Lemma Math_ceil_div_bounds x d :
  0 < d → d * (Math_ceil_div x d - 1) < x ≤ d * Math_ceil_div x d.
Proof.
  intros Hd. unfold Math_ceil_div.
  pose proof (Z.div_mod (- x) d ltac:(lia)) as Heq.
  pose proof (Z.mod_pos_bound (- x) d Hd) as Hmod.
  generalize dependent ((- x) / d). generalize dependent ((- x) `mod` d).
  intros r Hr q Heq. lia.
Qed.


(** Every predefined policy has a window of whole seconds: its expiry is
    the window. *)
Lemma RateLimits_expiry :
  Forall (λ policy, 1000 * Math_ceil_div (windowMs policy) 1000 = windowMs policy)
    [RateLimits_auth; RateLimits_api; RateLimits_read; RateLimits_write].
Proof. repeat constructor. Qed.

Lemma key_of_with_cache config c kv : key_of config (with_cache c kv) = key_of config c.
Proof. done. Qed.

Lemma KV_put_ok kv key v ttl now :
  KV_accepts kv ttl = true → KV_put kv key v ttl now = Some (KV_with kv key v ttl now).
Proof. intros H. unfold KV_put, KV_with. by rewrite H. Qed.

Lemma KV_put_refused kv key v ttl now :
  KV_accepts kv ttl = false → KV_put kv key v ttl now = None.
Proof. intros H. unfold KV_put. by rewrite H. Qed.

Lemma KV_accepts_true kv ttl :
  KV_accepts kv ttl = true ↔ put_rejects kv = false ∧ 60 ≤ ttl.
Proof.
  unfold KV_accepts, min_expirationTtl.
  destruct (put_rejects kv); cbn [negb andb].
  - split; [done|]. by intros [? _].
  - destruct (Z.leb_spec 60 ttl); split.
    + done.
    + done.
    + done.
    + intros [_ ?]. lia.
Qed.

Lemma KV_accepts_with kv key v ttl0 now ttl :
  KV_accepts (KV_with kv key v ttl0 now) ttl = KV_accepts kv ttl.
Proof. done. Qed.

(** The expiry of an increment is taken while more than 59 seconds of the
    window remain. *)
Lemma Math_ceil_div_minute x : 60 ≤ Math_ceil_div x 1000 ↔ 59000 < x.
Proof. pose proof (Math_ceil_div_bounds x 1000 ltac:(lia)). lia. Qed.

Lemma KV_get_ok kv key now r : KV_get kv key now = Some r → get_rejects kv = false.
Proof. unfold KV_get. by destruct (get_rejects kv). Qed.


(** Reads a header off a chain of [Headers.set]. *)
Ltac read_header :=
  repeat (rewrite lookup_insert_ne by done); rewrite lookup_insert_eq.

(** *** The four paths of a check *)

Lemma check_disabled config c now :
  ENABLE_RATE_LIMITING (env c) = false →
  rateLimitMiddleware config c now = (Next (res_headers c), CACHE (env c)).
Proof. intros H. unfold rateLimitMiddleware. by rewrite H. Qed.

Lemma check_first config c now :
  ENABLE_RATE_LIMITING (env c) = true →
  KV_get (CACHE (env c)) (key_of config c) now = Some None →
  KV_accepts (CACHE (env c)) (Math_ceil_div (windowMs config) 1000) = true →
  rateLimitMiddleware config c now =
    (Next (<["X-RateLimit-Reset" := toString (now + windowMs config)]>
            (<["X-RateLimit-Remaining" := toString (maxRequests config - 1)]>
              (<["X-RateLimit-Limit" := toString (maxRequests config)]>
                (res_headers c)))),
     KV_with (CACHE (env c)) (key_of config c)
       {| count := 1; resetAt := now + windowMs config |}
       (Math_ceil_div (windowMs config) 1000) now).
Proof.
  intros Hon Hget Hput. unfold rateLimitMiddleware.
  rewrite Hon, Hget. cbn [negb]. by rewrite KV_put_ok.
Qed.

Lemma check_reset config c now rec :
  ENABLE_RATE_LIMITING (env c) = true →
  KV_get (CACHE (env c)) (key_of config c) now = Some (Some rec) →
  resetAt rec < now →
  KV_accepts (CACHE (env c)) (Math_ceil_div (windowMs config) 1000) = true →
  rateLimitMiddleware config c now =
    (Next (res_headers c),
     KV_with (CACHE (env c)) (key_of config c)
       {| count := 1; resetAt := now + windowMs config |}
       (Math_ceil_div (windowMs config) 1000) now).
Proof.
  intros Hon Hget Hstale Hput. unfold rateLimitMiddleware.
  rewrite Hon, Hget. cbn [negb].
  destruct (Z.ltb_spec (resetAt rec) now); [|lia]. by rewrite KV_put_ok.
Qed.

Lemma check_reject config c now rec :
  ENABLE_RATE_LIMITING (env c) = true →
  KV_get (CACHE (env c)) (key_of config c) now = Some (Some rec) →
  now ≤ resetAt rec →
  maxRequests config ≤ count rec →
  rateLimitMiddleware config c now =
    (Respond 429
       (<["Content-Type" := "application/json"]>
         (<["Retry-After" := toString (Math_ceil_div (resetAt rec - now) 1000)]>
           (<["X-RateLimit-Limit" := toString (maxRequests config)]>
             (<["X-RateLimit-Remaining" := "0"]>
               (<["X-RateLimit-Reset" := toString (resetAt rec)]> ∅)))))
       too_many_requests,
     CACHE (env c)).
Proof.
  intros Hon Hget Hcur Hfull. unfold rateLimitMiddleware.
  rewrite Hon, Hget. cbn [negb].
  destruct (Z.ltb_spec (resetAt rec) now); [lia|].
  by destruct (Z.leb_spec (maxRequests config) (count rec)); [|lia].
Qed.

Lemma check_increment config c now rec :
  ENABLE_RATE_LIMITING (env c) = true →
  KV_get (CACHE (env c)) (key_of config c) now = Some (Some rec) →
  now ≤ resetAt rec →
  count rec < maxRequests config →
  KV_accepts (CACHE (env c)) (Math_ceil_div (resetAt rec - now) 1000) = true →
  rateLimitMiddleware config c now =
    (Next (<["X-RateLimit-Reset" := toString (resetAt rec)]>
            (<["X-RateLimit-Remaining" :=
                 toString (maxRequests config - count rec - 1)]>
              (<["X-RateLimit-Limit" := toString (maxRequests config)]>
                (res_headers c)))),
     KV_with (CACHE (env c)) (key_of config c)
       {| count := count rec + 1; resetAt := resetAt rec |}
       (Math_ceil_div (resetAt rec - now) 1000) now).
Proof.
  intros Hon Hget Hcur Hroom Hput. unfold rateLimitMiddleware.
  rewrite Hon, Hget. cbn [negb].
  destruct (Z.ltb_spec (resetAt rec) now); [lia|].
  destruct (Z.leb_spec (maxRequests config) (count rec)); [lia|].
  by rewrite KV_put_ok.
Qed.

(** Whatever happens, the store keeps its failure flags, and a check that
    does not go on to the handler leaves the store as it was. *)
Lemma check_unadmitted_store config c now :
  ¬ admitted (rateLimitMiddleware config c now).1 →
  (rateLimitMiddleware config c now).2 = CACHE (env c).
Proof.
  unfold rateLimitMiddleware.
  destruct (ENABLE_RATE_LIMITING (env c)); cbn [negb]; [|done].
  destruct (KV_get _ _ _) as [[rec|]|]; [| |done].
  - destruct (_ <? _).
    + destruct (KV_put _ _ _ _ _); [|done]. cbn. tauto.
    + destruct (_ <=? _); [done|].
      destruct (KV_put _ _ _ _ _); [|done]. cbn. tauto.
  - destruct (KV_put _ _ _ _ _); [|done]. cbn. tauto.
Qed.

(** *** A run of admitted requests inside one window *)






(** A counted request that comes with 59 seconds or less of the window
    left is neither let through nor answered: the store refuses the
    expiry of its put, and the refusal leaves the middleware. *)
Lemma late_increment_throws config c now rec :
  ENABLE_RATE_LIMITING (env c) = true →
  KV_get (CACHE (env c)) (key_of config c) now = Some (Some rec) →
  now ≤ resetAt rec →
  count rec < maxRequests config →
  resetAt rec - now ≤ 59000 →
  rateLimitMiddleware config c now = (Throws, CACHE (env c)).
Proof.
  intros Hon Hget Hcur Hroom Hlate. unfold rateLimitMiddleware.
  rewrite Hon, Hget. cbn [negb].
  destruct (Z.ltb_spec (resetAt rec) now); [lia|].
  destruct (Z.leb_spec (maxRequests config) (count rec)); [lia|].
  rewrite KV_put_refused; [done|].
  destruct (KV_accepts _ _) eqn:Hacc; [|done].
  apply KV_accepts_true in Hacc as [_ Hacc].
  apply Math_ceil_div_minute in Hacc. lia.
Qed.

(** *** The claims on the rate limiter *)


(** C4, as the code has it.  A record whose [resetAt] lies strictly before
    [now] is not counted on, whatever its count: where the store accepts
    the put of a first request (an expiry of [Math.ceil(windowMs / 1000)]
    seconds, at least the store's minimum), the check stores the record of
    a new window, count 1 and [resetAt = now + windowMs], with that
    expiry, and lets the request through; the store it leaves and the
    decision are those of the same check on a store without the key. *)
Theorem stale_record_resets_window (config : RateLimitConfig) (c : HonoContext)
    (now : Z) (rec : Counter) :
  ENABLE_RATE_LIMITING (env c) = true →
  KV_accepts (CACHE (env c)) (Math_ceil_div (windowMs config) 1000) = true →
  KV_get (CACHE (env c)) (key_of config c) now = Some (Some rec) →
  resetAt rec < now →
  let kv := CACHE (env c) in
  let key := key_of config c in
  let run := rateLimitMiddleware config c now in
  let run0 := rateLimitMiddleware config (with_cache c (KV_without kv key)) now in
  admitted run.1 ∧ admitted run0.1 ∧ run.2 = run0.2 ∧
  entries run.2 !! key =
    Some {| value := {| count := 1; resetAt := now + windowMs config |};
            storedAt := now;
            expirationTtl := Math_ceil_div (windowMs config) 1000 |}.
Proof.
  intros Hon Hput Hget Hstale kv key run run0.
  pose proof (KV_get_ok _ _ _ _ Hget) as Hgetok. fold kv in Hgetok.
  subst run run0. rewrite (check_reset config c now rec) by done.
  rewrite check_first; [|done| |done].
  - cbn [fst snd admitted with_cache env CACHE]. repeat split.
    + unfold KV_with, KV_without. cbn. f_equal.
      rewrite key_of_with_cache. by rewrite insert_delete_eq.
    + unfold KV_with. cbn. by rewrite lookup_insert_eq.
  - rewrite key_of_with_cache. unfold KV_get, KV_without. cbn.
    fold kv. rewrite Hgetok. by rewrite lookup_delete_eq.
Qed.

(** C5.  While the record of the key is current and its count has
    reached the limit, the check answers 429 with [Retry-After] the time
    to [resetAt] in seconds, rounded up, and [X-RateLimit-Remaining] 0,
    and writes nothing: the store is the one it found.  A second check
    right after it, still inside the window, finds the same count and
    [resetAt] and is rejected the same way, its [Retry-After] computed
    from the same [resetAt]. *)
Theorem exhausted_window_rejects (config : RateLimitConfig) (c : HonoContext)
    (now : Z) (rec : Counter) :
  ENABLE_RATE_LIMITING (env c) = true →
  KV_get (CACHE (env c)) (key_of config c) now = Some (Some rec) →
  now < resetAt rec →
  maxRequests config ≤ count rec →
  let retryAfter := Math_ceil_div (resetAt rec - now) 1000 in
  ∃ headers body,
    rateLimitMiddleware config c now = (Respond 429 headers body, CACHE (env c)) ∧
    headers !! "Retry-After" = Some (toString retryAfter) ∧
    1000 * (retryAfter - 1) < resetAt rec - now ≤ 1000 * retryAfter ∧
    headers !! "X-RateLimit-Remaining" = Some "0" ∧
    ∀ now',
      now' < resetAt rec →
      KV_get (CACHE (env c)) (key_of config c) now' = Some (Some rec) →
      ∃ headers' body',
        serve config c [now; now'] =
          ([Respond 429 headers body; Respond 429 headers' body'], CACHE (env c)) ∧
        headers' !! "Retry-After" =
          Some (toString (Math_ceil_div (resetAt rec - now') 1000)) ∧
        headers' !! "X-RateLimit-Remaining" = Some "0".
Proof.
  intros Hon Hget Hcur Hfull retryAfter.
  rewrite (check_reject config c now rec) by (done || lia).
  eexists _, _. split; [reflexivity|].
  split; [by read_header|].
  split; [by apply Math_ceil_div_bounds|].
  split; [by read_header|].
  intros now' Hcur' Hget'. eexists _, _. cbn [serve].
  rewrite (check_reject config c now rec) by (done || lia).
  rewrite (check_reject config (with_cache c (CACHE (env c))) now' rec)
    by (done || lia).
  cbn [with_cache env CACHE]. split; [done|].
  split; [by read_header|].
  by read_header.
Qed.


(** *** The claims at concrete inputs *)



(** The stores of the scenarios are stores the middleware leaves. *)
Lemma scenario_stores_reached :
  (serve three_per_minute (client empty_store) [0; 1; 2]).2 = exhausted_store ∧
  (serve two_per_minute (client empty_store) [0; 1]).2 = boundary_store ∧
  (serve three_per_minute (client empty_store) [500; 1200]).2 = stale_store.
Proof. repeat split; by vm_compute. Qed.

(** C4 as stated fails at [now = resetAt]: the record, still in the store,
    counts as current, and with the limit reached the request is answered
    429, where the same check without a record admits it and reports
    [maxRequests - 1]. *)
Lemma boundary_record_is_current :
  KV_get boundary_store (key_of two_per_minute (client boundary_store)) 60000
    = Some (Some {| count := 2; resetAt := 60000 |}) ∧
  resetAt {| count := 2; resetAt := 60000 |} ≤ 60000 ∧
  (∃ headers body,
     rateLimitMiddleware two_per_minute (client boundary_store) 60000
       = (Respond 429 headers body, boundary_store) ∧
     headers !! "Retry-After" = Some "0") ∧
  ¬ admitted (rateLimitMiddleware two_per_minute (client boundary_store) 60000).1 ∧
  admitted (rateLimitMiddleware two_per_minute (client empty_store) 60000).1 ∧
  remaining (rateLimitMiddleware two_per_minute (client empty_store) 60000).1
    = Some "1".
Proof.
  assert (KV_get boundary_store (key_of two_per_minute (client boundary_store)) 60000
            = Some (Some {| count := 2; resetAt := 60000 |})) as Hget
    by by vm_compute.
  split; [done|]. split; [cbn; lia|].
  rewrite (check_reject two_per_minute (client boundary_store) 60000
             {| count := 2; resetAt := 60000 |}) by (done || cbn; lia).
  split; [|split; [cbn; tauto|]].
  - eexists _, _. split; [reflexivity|]. by read_header.
  - rewrite (check_first two_per_minute (client empty_store) 60000) by done.
    cbn [fst admitted remaining]. split; [done|]. by read_header.
Qed.

(** On the way of a reset the middleware sets none of the
    [X-RateLimit-*] headers, which it sets for a first request and for a
    counted one. *)
Lemma reset_reports_no_headers :
  admitted (rateLimitMiddleware three_per_minute (client stale_store) 61000).1 ∧
  remaining (rateLimitMiddleware three_per_minute (client stale_store) 61000).1
    = None ∧
  remaining (rateLimitMiddleware three_per_minute (client empty_store) 61000).1
    = Some "2".
Proof.
  rewrite (check_reset three_per_minute (client stale_store) 61000
             {| count := 2; resetAt := 60500 |}) by first [by vm_compute | cbn; lia].
  rewrite (check_first three_per_minute (client empty_store) 61000) by done.
  cbn [fst admitted remaining]. split; [done|]. split; [done|]. by read_header.
Qed.

(** C4, as the code has it, at [stale_store]: a request at 61000 ms, after
    the window ended at 60500 ms. *)
Lemma stale_record_resets_window_witness :
  KV_get stale_store (key_of three_per_minute (client stale_store)) 61000
    = Some (Some {| count := 2; resetAt := 60500 |}) ∧
  entries (rateLimitMiddleware three_per_minute (client stale_store) 61000).2
    !! "ratelimit:203.0.113.7"
    = Some {| value := {| count := 1; resetAt := 121000 |};
              storedAt := 61000; expirationTtl := 60 |}.
Proof.
  assert (KV_get stale_store (key_of three_per_minute (client stale_store)) 61000
            = Some (Some {| count := 2; resetAt := 60500 |})) as Hget
    by (vm_compute; reflexivity).
  split; [exact Hget|].
  assert (resetAt {| count := 2; resetAt := 60500 |} < 61000) as Hstale
    by (cbn; lia).
  exact (proj2 (proj2 (proj2
    (stale_record_resets_window three_per_minute (client stale_store) 61000
       {| count := 2; resetAt := 60500 |} eq_refl eq_refl Hget Hstale)))).
Defined.

(** C5 at [exhausted_store]: a fourth request at 3 s is told to retry
    after 57 s. *)
Lemma exhausted_window_rejects_witness :
  KV_get exhausted_store (key_of three_per_minute (client exhausted_store)) 3000
    = Some (Some {| count := 3; resetAt := 60000 |}) ∧
  ∃ headers body,
    rateLimitMiddleware three_per_minute (client exhausted_store) 3000
      = (Respond 429 headers body, exhausted_store) ∧
    headers !! "Retry-After" = Some "57".
Proof.
  assert (KV_get exhausted_store (key_of three_per_minute (client exhausted_store)) 3000
            = Some (Some {| count := 3; resetAt := 60000 |})) as Hget
    by (vm_compute; reflexivity).
  split; [exact Hget|].
  assert (3000 < resetAt {| count := 3; resetAt := 60000 |}) as Hcur by (cbn; lia).
  assert (maxRequests three_per_minute ≤ count {| count := 3; resetAt := 60000 |})
    as Hfull by (cbn; lia).
  destruct (exhausted_window_rejects three_per_minute (client exhausted_store) 3000
              {| count := 3; resetAt := 60000 |} eq_refl Hget Hcur Hfull)
    as (headers & body & Hrun & Hretry & _).
  exists headers, body. split; [exact Hrun|exact Hretry].
Defined.



(** *** More on the rate limiter *)

Lemma KV_put_cases kv key v ttl now :
  KV_put kv key v ttl now = None ∨
  KV_put kv key v ttl now = Some (KV_with kv key v ttl now).
Proof. unfold KV_put, KV_with. destruct (KV_accepts kv ttl); [by right|by left]. Qed.

(** A check leaves the store as it found it or puts one entry, under the
    key of the request and stamped with [now]. *)
Lemma check_store_shapes config c now :
  (rateLimitMiddleware config c now).2 = CACHE (env c) ∨
  ∃ v ttl,
    (rateLimitMiddleware config c now).2 =
      KV_with (CACHE (env c)) (key_of config c) v ttl now.
Proof.
  unfold rateLimitMiddleware.
  destruct (negb _); [by left|].
  destruct (KV_get _ _ _) as [[rec|]|]; [| |by left].
  - destruct (_ <? _).
    + destruct (KV_put_cases (CACHE (env c)) (key_of config c)
                  {| count := 1; resetAt := now + windowMs config |}
                  (Math_ceil_div (windowMs config) 1000) now) as [->| ->];
        [by left|]. right. by eexists _, _.
    + destruct (_ <=? _); [by left|].
      destruct (KV_put_cases (CACHE (env c)) (key_of config c)
                  {| count := count rec + 1; resetAt := resetAt rec |}
                  (Math_ceil_div (resetAt rec - now) 1000) now) as [->| ->];
        [by left|]. right. by eexists _, _.
  - destruct (KV_put_cases (CACHE (env c)) (key_of config c)
                {| count := 1; resetAt := now + windowMs config |}
                (Math_ceil_div (windowMs config) 1000) now) as [->| ->];
      [by left|]. right. by eexists _, _.
Qed.

Lemma KV_get_entry kv key now rec :
  KV_get kv key now = Some (Some rec) →
  ∃ e, entries kv !! key = Some e ∧ value e = rec ∧ now < expiresAt e.
Proof.
  unfold KV_get. destruct (get_rejects kv); [done|].
  destruct (entries kv !! key) as [e|]; [|done].
  destruct (Z.ltb_spec now (expiresAt e)); [|done].
  intros [= <-]. by exists e.
Qed.

Lemma KV_get_visible kv key now e :
  get_rejects kv = false → entries kv !! key = Some e → now < expiresAt e →
  KV_get kv key now = Some (Some (value e)).
Proof.
  intros Hget He Hlive. unfold KV_get. rewrite Hget, He.
  by destruct (Z.ltb_spec now (expiresAt e)); [|lia].
Qed.

Lemma key_of_inj config c c' :
  key_of config c' = key_of config c → identifier c' = identifier c.
Proof.
  unfold key_of. intros Heq.
  apply (inj (String.app _)) in Heq. by apply (inj (String.app _)) in Heq.
Qed.

(** Inside a window whose record is in the store, requests are let through
    until the count reaches the limit, where the store takes their puts,
    and answered 429 from then on. *)
Lemma serve_current_record config c times :
  ∀ kv e,
    ENABLE_RATE_LIMITING (env c) = true →
    get_rejects kv = false →
    entries kv !! key_of config c = Some e →
    resetAt (value e) ≤ expiresAt e →
    (∀ t, t ∈ times → t < resetAt (value e)) →
    (∀ t, t ∈ take (Z.to_nat (maxRequests config - count (value e))) times →
       KV_accepts kv (Math_ceil_div (resetAt (value e) - t) 1000) = true) →
    let run := serve config (with_cache c kv) times in
    ∃ passed refused : list Result,
      run.1 = (passed ++ refused)%list ∧
      Forall admitted passed ∧ Forall rejected refused ∧
      length passed =
        Nat.min (length times) (Z.to_nat (maxRequests config - count (value e))) ∧
      ∃ e',
        entries run.2 !! key_of config c = Some e' ∧
        count (value e') = count (value e) + Z.of_nat (length passed) ∧
        resetAt (value e') = resetAt (value e).
Proof.
  induction times as [|now later IH]; intros kv e Hon Hget He Hlive Hwin Hput.
  - cbn [serve with_cache env CACHE fst snd length].
    exists [], []. split; [done|]. split; [constructor|]. split; [constructor|].
    split; [done|]. exists e. split; [done|]. split; [cbn; lia|done].
  - cbn [serve].
    assert (now < resetAt (value e)) as Hnow by (apply Hwin; left).
    assert (KV_get kv (key_of config c) now = Some (Some (value e))) as Hsee
      by (apply KV_get_visible; [done|done|lia]).
    destruct (Z.lt_ge_cases (count (value e)) (maxRequests config)) as [Hroom|Hfull].
    + assert (Z.to_nat (maxRequests config - count (value e)) =
              S (Z.to_nat (maxRequests config - (count (value e) + 1)))) as Hleft
        by lia.
      rewrite Hleft in Hput. cbn [take] in Hput.
      rewrite (check_increment config (with_cache c kv) now (value e));
        [|done|done|lia|done|apply Hput; left].
      rewrite key_of_with_cache. cbn [with_cache env CACHE].
      set (ttl := Math_ceil_div (resetAt (value e) - now) 1000).
      set (v := {| count := count (value e) + 1; resetAt := resetAt (value e) |}).
      set (kv' := KV_with kv (key_of config c) v ttl now).
      pose proof (Math_ceil_div_bounds (resetAt (value e) - now) 1000 ltac:(lia))
        as Httl. fold ttl in Httl.
      destruct (IH kv' {| value := v; storedAt := now; expirationTtl := ttl |})
        as (passed & refused & Hrun & Hpassed & Hrefused & Hlen & e' & He' & Hcount & Hreset);
        [done|done| | | | |].
      * subst kv'. unfold KV_with. cbn. apply lookup_insert_eq.
      * unfold expiresAt. cbn. lia.
      * intros t Ht. cbn. apply Hwin. by right.
      * intros t Ht. cbn [value count resetAt v] in *.
        subst kv'. rewrite KV_accepts_with. apply Hput. by right.
      * change (with_cache (with_cache c kv) kv') with (with_cache c kv').
        destruct (serve config (with_cache c kv') later) as [rs kv''].
        cbn [fst snd] in *. subst rs.
        eexists (_ :: passed), refused. split; [done|].
        split; [by constructor|]. split; [done|].
        subst v. cbn [length value count resetAt] in *. split; [lia|].
        exists e'. repeat split; [done|lia|done].
    + rewrite (check_reject config (with_cache c kv) now (value e))
        by (done || lia).
      cbn [with_cache env CACHE].
      assert (Z.to_nat (maxRequests config - count (value e)) = 0%nat) as Hleft
        by lia.
      destruct (IH kv e)
        as (passed & refused & Hrun & Hpassed & Hrefused & Hlen & e' & He' & Hcount & Hreset);
        [done|done|done|done| | |].
      * intros t Ht. apply Hwin. by right.
      * rewrite Hleft. cbn [take]. by intros t Ht%elem_of_nil.
      * change (with_cache (with_cache c kv) kv) with (with_cache c kv).
        destruct (serve config (with_cache c kv) later) as [rs kv''].
        cbn [fst snd] in *. subst rs.
        assert (passed = []) as -> by (destruct passed; [done|cbn in Hlen; lia]).
        eexists [], (_ :: refused). split; [done|].
        split; [constructor|]. split; [by constructor|].
        cbn [length]. split; [lia|].
        exists e'. repeat split; [done|cbn in Hcount; cbn; lia|done].
Qed.

(** X12.  On a fresh key, of any number of requests inside one window the
    first [maxRequests] are let through, one after the other, where the
    store takes their puts, and every later one is answered 429; the
    first request of a window is let through even under a limit of zero
    or less.  The count in the store is the number of requests let
    through. *)
Theorem window_admits_at_most_limit (config : RateLimitConfig) (c : HonoContext)
    (now : Z) (later : list Z) :
  ENABLE_RATE_LIMITING (env c) = true →
  KV_get (CACHE (env c)) (key_of config c) now = Some None →
  KV_accepts (CACHE (env c)) (Math_ceil_div (windowMs config) 1000) = true →
  (∀ t, t ∈ later → t < now + windowMs config) →
  (∀ t, t ∈ take (Z.to_nat (maxRequests config - 1)) later →
     KV_accepts (CACHE (env c))
       (Math_ceil_div (now + windowMs config - t) 1000) = true) →
  let run := serve config c (now :: later) in
  ∃ passed refused : list Result,
    run.1 = (passed ++ refused)%list ∧
    Forall admitted passed ∧ Forall rejected refused ∧
    length passed =
      Nat.min (length (now :: later)) (Z.to_nat (Z.max 1 (maxRequests config))) ∧
    ∃ e,
      entries run.2 !! key_of config c = Some e ∧
      count (value e) = Z.of_nat (length passed) ∧
      resetAt (value e) = now + windowMs config.
Proof.
  intros Hon Hnone Hput Hwin Hputs run. subst run. cbn [serve].
  pose proof (KV_get_ok _ _ _ _ Hnone) as Hget.
  rewrite check_first by done.
  set (ttl := Math_ceil_div (windowMs config) 1000).
  set (v := {| count := 1; resetAt := now + windowMs config |}).
  set (kv1 := KV_with _ _ _ _ _).
  pose proof (Math_ceil_div_bounds (windowMs config) 1000 ltac:(lia)) as Httl.
  fold ttl in Httl.
  destruct (serve_current_record config c later kv1
              {| value := v; storedAt := now; expirationTtl := ttl |})
    as (passed & refused & Hrun & Hpassed & Hrefused & Hlen & e' & He' & Hcount & Hreset);
    [done|done| | | | |].
  - subst kv1. unfold KV_with. cbn. apply lookup_insert_eq.
  - unfold expiresAt. cbn. lia.
  - intros t Ht. cbn. by apply Hwin.
  - intros t Ht. cbn [value count resetAt v] in *.
    subst kv1. rewrite KV_accepts_with. by apply Hputs.
  - destruct (serve config (with_cache c kv1) later) as [rs kv'].
    cbn [fst snd] in *. subst rs.
    eexists (_ :: passed), refused. split; [done|].
    split; [by constructor|]. split; [done|].
    subst v. cbn [length value count resetAt] in *. split; [lia|].
    exists e'. repeat split; [done|lia|done].
Qed.

(** X13.  Clients with different identifiers have different keys under
    one policy, and a check of one of them leaves the record of the other
    as it is: what the other's next check reads does not change. *)
Theorem check_touches_only_its_key (config : RateLimitConfig) (c c' : HonoContext)
    (now : Z) :
  identifier c' ≠ identifier c →
  let kv' := (rateLimitMiddleware config c now).2 in
  key_of config c' ≠ key_of config c ∧
  entries kv' !! key_of config c' = entries (CACHE (env c)) !! key_of config c' ∧
  ∀ t, KV_get kv' (key_of config c') t = KV_get (CACHE (env c)) (key_of config c') t.
Proof.
  intros Hid kv'.
  assert (key_of config c' ≠ key_of config c) as Hkey
    by (intros Heq; by apply Hid, (key_of_inj config)).
  split; [done|]. subst kv'.
  destruct (check_store_shapes config c now) as [->|(v & ttl & ->)]; [done|].
  unfold KV_get, KV_with. cbn. by rewrite lookup_insert_ne.
Qed.

(** X14.  The only answer the middleware gives itself is the 429: it
    comes from a record that is not past its [resetAt] and whose count has
    reached the limit, it writes nothing to the store, its [Retry-After]
    is never negative, and it carries the limit, a remaining of 0 and the
    [resetAt] of the record. *)
Theorem own_answer_is_429 (config : RateLimitConfig) (c : HonoContext) (now : Z)
    (status : Z) (headers : gmap string string) (body : json) (kv' : KVNamespace) :
  rateLimitMiddleware config c now = (Respond status headers body, kv') →
  status = 429 ∧ body = too_many_requests ∧ kv' = CACHE (env c) ∧
  ∃ rec,
    KV_get (CACHE (env c)) (key_of config c) now = Some (Some rec) ∧
    now ≤ resetAt rec ∧ maxRequests config ≤ count rec ∧
    0 ≤ Math_ceil_div (resetAt rec - now) 1000 ∧
    headers !! "Retry-After" = Some (toString (Math_ceil_div (resetAt rec - now) 1000)) ∧
    headers !! "X-RateLimit-Limit" = Some (toString (maxRequests config)) ∧
    headers !! "X-RateLimit-Remaining" = Some "0" ∧
    headers !! "X-RateLimit-Reset" = Some (toString (resetAt rec)).
Proof.
  unfold rateLimitMiddleware.
  destruct (negb _); [done|].
  destruct (KV_get _ _ _) as [[rec|]|]; [| |done].
  - destruct (Z.ltb_spec (resetAt rec) now) as [Hstale|Hcur].
    { by destruct (KV_put _ _ _ _ _). }
    destruct (Z.leb_spec (maxRequests config) (count rec)) as [Hfull|Hroom].
    + intros [= <- <- <- <-]. split; [done|]. split; [done|]. split; [done|].
      exists rec. split; [done|]. split; [done|]. split; [done|].
      pose proof (Math_ceil_div_bounds (resetAt rec - now) 1000 ltac:(lia)).
      split; [lia|]. repeat split; by read_header.
    + by destruct (KV_put _ _ _ _ _).
  - by destruct (KV_put _ _ _ _ _).
Qed.

(** X15.  With the limiter on, no request is let through without being
    counted: the store then holds, under the key of the request, an entry
    put at [now] that lives to the end of its window, either the first
    count of a new window or the count the check read plus one, which was
    below the limit; no other key has changed. *)
Theorem admitted_request_is_counted (config : RateLimitConfig) (c : HonoContext)
    (now : Z) (headers : gmap string string) (kv' : KVNamespace) :
  ENABLE_RATE_LIMITING (env c) = true →
  rateLimitMiddleware config c now = (Next headers, kv') →
  ∃ e,
    entries kv' !! key_of config c = Some e ∧
    storedAt e = now ∧
    resetAt (value e) ≤ expiresAt e < resetAt (value e) + 1000 ∧
    (value e = {| count := 1; resetAt := now + windowMs config |} ∨
     ∃ rec,
       KV_get (CACHE (env c)) (key_of config c) now = Some (Some rec) ∧
       now ≤ resetAt rec ∧ count rec < maxRequests config ∧
       value e = {| count := count rec + 1; resetAt := resetAt rec |}) ∧
    ∀ key, key ≠ key_of config c →
      entries kv' !! key = entries (CACHE (env c)) !! key.
Proof.
  intros Hon. unfold rateLimitMiddleware. rewrite Hon. cbn [negb].
  pose proof (Math_ceil_div_bounds (windowMs config) 1000 ltac:(lia)) as Hwindow.
  assert (∀ v ttl,
    resetAt v ≤ now + 1000 * ttl < resetAt v + 1000 →
    (v = {| count := 1; resetAt := now + windowMs config |} ∨
     ∃ rec,
       KV_get (CACHE (env c)) (key_of config c) now = Some (Some rec) ∧
       now ≤ resetAt rec ∧ count rec < maxRequests config ∧
       v = {| count := count rec + 1; resetAt := resetAt rec |}) →
    ∃ e,
      entries (KV_with (CACHE (env c)) (key_of config c) v ttl now)
        !! key_of config c = Some e ∧
      storedAt e = now ∧
      resetAt (value e) ≤ expiresAt e < resetAt (value e) + 1000 ∧
      (value e = {| count := 1; resetAt := now + windowMs config |} ∨
       ∃ rec,
         KV_get (CACHE (env c)) (key_of config c) now = Some (Some rec) ∧
         now ≤ resetAt rec ∧ count rec < maxRequests config ∧
         value e = {| count := count rec + 1; resetAt := resetAt rec |}) ∧
      ∀ key, key ≠ key_of config c →
        entries (KV_with (CACHE (env c)) (key_of config c) v ttl now) !! key
          = entries (CACHE (env c)) !! key) as Hput.
  { intros v ttl Hlife Hvalue. eexists. unfold KV_with. cbn [entries].
    split; [apply lookup_insert_eq|]. split; [done|]. split; [done|].
    split; [done|]. intros key Hkey. by rewrite lookup_insert_ne. }
  destruct (KV_get _ _ _) as [[rec|]|] eqn:Hsee; [| |done].
  - destruct (Z.ltb_spec (resetAt rec) now) as [Hstale|Hcur].
    + destruct (KV_put_cases (CACHE (env c)) (key_of config c)
                  {| count := 1; resetAt := now + windowMs config |}
                  (Math_ceil_div (windowMs config) 1000) now) as [->| ->];
        [done|].
      intros [= <- <-]. apply Hput; [cbn; lia|by left].
    + destruct (Z.leb_spec (maxRequests config) (count rec)) as [Hfull|Hroom];
        [done|].
      destruct (KV_put_cases (CACHE (env c)) (key_of config c)
                  {| count := count rec + 1; resetAt := resetAt rec |}
                  (Math_ceil_div (resetAt rec - now) 1000) now) as [->| ->];
        [done|].
      intros [= <- <-].
      pose proof (Math_ceil_div_bounds (resetAt rec - now) 1000 ltac:(lia)).
      apply Hput; [cbn; lia|]. right. by exists rec.
  - destruct (KV_put_cases (CACHE (env c)) (key_of config c)
                {| count := 1; resetAt := now + windowMs config |}
                (Math_ceil_div (windowMs config) 1000) now) as [->| ->];
      [done|].
    intros [= <- <-]. apply Hput; [cbn; lia|by left].
Qed.

(** X16.  With the limiter switched off every request goes on to the
    handler with the headers it came with, and the store is neither read
    nor written, so also when the store is unavailable. *)
Theorem disabled_limiter_skips_store (config : RateLimitConfig) (c : HonoContext)
    (times : list Z) :
  ENABLE_RATE_LIMITING (env c) = false →
  serve config c times = ((λ _, Next (res_headers c)) <$> times, CACHE (env c)).
Proof.
  intros Hoff.
  assert (∀ ts kv, serve config (with_cache c kv) ts
                     = ((λ _, Next (res_headers c)) <$> ts, kv)) as Hall.
  { induction ts as [|now later IH]; intros kv; [done|].
    cbn [serve]. rewrite check_disabled by done.
    cbn [with_cache env CACHE res_headers].
    change (with_cache (with_cache c kv) kv) with (with_cache c kv).
    by rewrite IH. }
  destruct times as [|now later]; [done|].
  cbn [serve]. rewrite check_disabled by done. by rewrite Hall.
Qed.

Lemma check_keeps_entries_ok config c now :
  map_Forall (λ _ e, entry_ok e) (entries (CACHE (env c))) →
  map_Forall (λ _ e, entry_ok e) (entries (rateLimitMiddleware config c now).2).
Proof.
  intros Hok. unfold rateLimitMiddleware.
  pose proof (Math_ceil_div_bounds (windowMs config) 1000 ltac:(lia)) as Hwindow.
  destruct (negb _); [done|].
  destruct (KV_get _ _ _) as [[rec|]|] eqn:Hsee; [| |done].
  - destruct (Z.ltb_spec (resetAt rec) now) as [Hstale|Hcur].
    + destruct (KV_put_cases (CACHE (env c)) (key_of config c)
                  {| count := 1; resetAt := now + windowMs config |}
                  (Math_ceil_div (windowMs config) 1000) now) as [->| ->];
        [done|]. cbn.
      apply map_Forall_insert_2; [|done]. unfold entry_ok, expiresAt. cbn. lia.
    + destruct (_ <=? _); [done|].
      destruct (KV_put_cases (CACHE (env c)) (key_of config c)
                  {| count := count rec + 1; resetAt := resetAt rec |}
                  (Math_ceil_div (resetAt rec - now) 1000) now) as [->| ->];
        [done|]. cbn.
      apply map_Forall_insert_2; [|done].
      apply KV_get_entry in Hsee as (e & He & <- & _).
      destruct (Hok _ _ He) as [Hcount _].
      pose proof (Math_ceil_div_bounds (resetAt (value e) - now) 1000 ltac:(lia)).
      unfold entry_ok, expiresAt. cbn. lia.
  - destruct (KV_put_cases (CACHE (env c)) (key_of config c)
                {| count := 1; resetAt := now + windowMs config |}
                (Math_ceil_div (windowMs config) 1000) now) as [->| ->];
      [done|]. cbn.
    apply map_Forall_insert_2; [|done]. unfold entry_ok, expiresAt. cbn. lia.
Qed.

(** X17.  The middleware keeps the store sound: when every counter in it
    counts at least one request and lives to the end of its window and
    less than a second longer, this is still so after any requests, at
    whatever instants and whatever the store's faults; from the empty
    store it holds throughout. *)
Theorem counters_outlive_their_window (config : RateLimitConfig) (c : HonoContext)
    (times : list Z) :
  map_Forall (λ _ e, entry_ok e) (entries (CACHE (env c))) →
  map_Forall (λ _ e, entry_ok e) (entries (serve config c times).2).
Proof.
  revert c. induction times as [|now later IH]; intros c Hok; [done|].
  cbn [serve].
  pose proof (check_keeps_entries_ok config c now Hok) as Hstep.
  destruct (rateLimitMiddleware config c now) as [r kv].
  specialize (IH (with_cache c kv) Hstep).
  by destruct (serve config (with_cache c kv) later).
Qed.

(** X20.  The counter a request is charged to follows its identity: the
    id of the authenticated agent when there is a non-empty one, else the
    connecting address when there is a non-empty one, else [anonymous];
    under one policy two requests share a counter exactly when these
    identities are equal. *)
Theorem bucket_follows_identity (config : RateLimitConfig) (c c' : HonoContext) :
  (∀ a, agent c = Some a → id a ≠ EmptyString → identifier c = id a) ∧
  (∀ ip, falsy (id <$> agent c) = true → CF_Connecting_IP c = Some ip →
         ip ≠ EmptyString → identifier c = ip) ∧
  (falsy (id <$> agent c) = true → falsy (CF_Connecting_IP c) = true →
   identifier c = "anonymous") ∧
  (key_of config c' = key_of config c ↔ identifier c' = identifier c).
Proof.
  unfold identifier, or_else. split; [|split; [|split]].
  - intros a -> Ha. cbn. by destruct (id a).
  - intros ip -> -> Hip. by destruct ip.
  - by intros -> ->.
  - split; [apply key_of_inj|]. unfold key_of, identifier, or_else. by intros ->.
Qed.

(** X21.  A refusal ends with the window: once [now] is past the [resetAt]
    of the record in the store, whatever its count and whether the store
    still shows the key or has dropped it, a store that takes the put
    lets the request through and holds the first count of a new window. *)
Theorem refusal_ends_with_window (config : RateLimitConfig) (c : HonoContext)
    (now : Z) (e : KVEntry) :
  ENABLE_RATE_LIMITING (env c) = true →
  get_rejects (CACHE (env c)) = false →
  KV_accepts (CACHE (env c)) (Math_ceil_div (windowMs config) 1000) = true →
  entries (CACHE (env c)) !! key_of config c = Some e →
  resetAt (value e) < now →
  let run := rateLimitMiddleware config c now in
  admitted run.1 ∧
  run.2 = KV_with (CACHE (env c)) (key_of config c)
            {| count := 1; resetAt := now + windowMs config |}
            (Math_ceil_div (windowMs config) 1000) now.
Proof.
  intros Hon Hget Hput He Hover run. subst run.
  destruct (Z.lt_ge_cases now (expiresAt e)) as [Hlive|Hdead].
  - rewrite (check_reset config c now (value e));
      [done|done|by apply KV_get_visible|done|done].
  - rewrite check_first; [done|done| |done].
    unfold KV_get. rewrite Hget, He.
    by destruct (Z.ltb_spec now (expiresAt e)); [lia|].
Qed.

(** *** More on the rate limiter, at concrete inputs *)

(** X12 at five requests under [three_per_minute]: three in the first
    milliseconds of the window, each put with an expiry of 60 s, then one
    at 3 s and one at 59 s. *)
Lemma window_admits_at_most_limit_witness :
  Forall (λ t, KV_accepts empty_store
                 (Math_ceil_div (0 + windowMs three_per_minute - t) 1000) = true)
    [0; 1; 2] ∧
  (∃ passed refused : list Result,
     (serve three_per_minute (client empty_store) [0; 1; 2; 3000; 59000]).1
       = (passed ++ refused)%list ∧
     Forall admitted passed ∧ Forall rejected refused ∧ length passed = 3%nat) ∧
  ∃ h1 h2 h3 h4 h5 b4 b5,
    (serve three_per_minute (client empty_store) [0; 1; 2; 3000; 59000]).1
      = [Next h1; Next h2; Next h3; Respond 429 h4 b4; Respond 429 h5 b5] ∧
    entries (serve three_per_minute (client empty_store) [0; 1; 2; 3000; 59000]).2
      !! "ratelimit:203.0.113.7"
      = Some {| value := {| count := 3; resetAt := 60000 |};
                storedAt := 2; expirationTtl := 60 |}.
Proof.
  split; [by repeat constructor|].
  split; [|eexists _, _, _, _, _, _, _; split; by vm_compute].
  destruct (window_admits_at_most_limit three_per_minute (client empty_store) 0
              [1; 2; 3000; 59000] eq_refl eq_refl eq_refl)
    as (passed & refused & Hrun & Hpassed & Hrefused & Hlen & _).
  - intros t Ht. cbn.
    repeat (apply elem_of_cons in Ht as [->|Ht]; [lia|]).
    by apply elem_of_nil in Ht.
  - intros t Ht. cbn in Ht.
    repeat (apply elem_of_cons in Ht as [->|Ht]; [reflexivity|]).
    by apply elem_of_nil in Ht.
  - exists passed, refused. split; [exact Hrun|]. split; [exact Hpassed|].
    split; [exact Hrefused|exact Hlen].
Defined.

(** X13 at the exhausted store: a check of the first client leaves the
    other one without a record. *)
Lemma check_touches_only_its_key_witness :
  identifier (other_client exhausted_store) ≠ identifier (client exhausted_store) ∧
  KV_get (rateLimitMiddleware three_per_minute (client exhausted_store) 3000).2
    (key_of three_per_minute (other_client exhausted_store)) 3000
  = Some None.
Proof.
  assert (identifier (other_client exhausted_store)
            ≠ identifier (client exhausted_store)) as Hid by discriminate.
  split; [exact Hid|].
  destruct (check_touches_only_its_key three_per_minute (client exhausted_store)
              (other_client exhausted_store) 3000 Hid) as (_ & _ & Hsame).
  rewrite Hsame. reflexivity.
Defined.

(** X14 at the exhausted store: the fourth request. *)
Lemma own_answer_is_429_witness :
  ∃ headers body,
    rateLimitMiddleware three_per_minute (client exhausted_store) 3000
      = (Respond 429 headers body, exhausted_store) ∧
    headers !! "X-RateLimit-Limit" = Some "3".
Proof.
  destruct (rateLimitMiddleware three_per_minute (client exhausted_store) 3000)
    as [r kv'] eqn:Hrun.
  assert (∃ headers body, r = Respond 429 headers body ∧ kv' = exhausted_store)
    as (headers & body & -> & ->).
  { vm_compute in Hrun. injection Hrun as <- <-. by eexists _, _. }
  exists headers, body. split; [reflexivity|].
  destruct (own_answer_is_429 three_per_minute (client exhausted_store) 3000
              429 headers body exhausted_store Hrun)
    as (_ & _ & _ & rec & _ & _ & _ & _ & _ & Hlimit & _).
  exact Hlimit.
Defined.

(** X15 at the empty store: the first request. *)
Lemma admitted_request_is_counted_witness :
  ∃ e,
    entries (rateLimitMiddleware three_per_minute (client empty_store) 0).2
      !! "ratelimit:203.0.113.7" = Some e ∧
    storedAt e = 0.
Proof.
  destruct (rateLimitMiddleware three_per_minute (client empty_store) 0)
    as [r kv'] eqn:Hrun.
  assert (∃ headers, r = Next headers) as [headers ->].
  { vm_compute in Hrun. injection Hrun as <- _. by eexists. }
  destruct (admitted_request_is_counted three_per_minute (client empty_store) 0
              headers kv' eq_refl Hrun) as (e & He & Hat & _).
  exists e. split; [exact He|exact Hat].
Defined.

(** X16 at the unavailable store: three requests, the limiter off. *)
Lemma disabled_limiter_skips_store_witness :
  serve three_per_minute unlimited_client [0; 1; 2]
    = ([Next ∅; Next ∅; Next ∅], unavailable_store).
Proof.
  exact (disabled_limiter_skips_store three_per_minute unlimited_client [0; 1; 2]
           eq_refl).
Defined.

(** X17 from the empty store. *)
Lemma counters_outlive_their_window_witness :
  map_Forall (λ _ e, entry_ok e)
    (entries (serve three_per_minute (client empty_store) [0; 1000; 61000]).2).
Proof.
  apply counters_outlive_their_window. apply map_Forall_empty.
Defined.

(** X20 at the two clients of the scenarios. *)
Lemma bucket_follows_identity_witness :
  identifier (client empty_store) = "203.0.113.7" ∧
  key_of three_per_minute (other_client empty_store)
    ≠ key_of three_per_minute (client empty_store).
Proof.
  destruct (bucket_follows_identity three_per_minute (client empty_store)
              (other_client empty_store)) as (_ & Hip & _ & Hkey).
  split.
  - apply Hip; [reflexivity|reflexivity|discriminate].
  - intros Heq. apply Hkey in Heq. discriminate.
Defined.

(** X21 at the exhausted store: a request at 61 s. *)
Lemma refusal_ends_with_window_witness :
  admitted (rateLimitMiddleware three_per_minute (client exhausted_store) 61000).1.
Proof.
  assert (resetAt {| count := 3; resetAt := 60000 |} < 61000) as Hover by (cbn; lia).
  exact (proj1 (refusal_ends_with_window three_per_minute (client exhausted_store)
                  61000
                  {| value := {| count := 3; resetAt := 60000 |};
                     storedAt := 2; expirationTtl := 60 |}
                  eq_refl eq_refl eq_refl eq_refl Hover)).
Defined.

End RateLimitFacts.
